(** * SampleFlow: the clearance risk-scoring utility

    A shallow embedding of [utils/riskScoring] (the module exporting
    [calculateRiskScore] and [getRiskLevelColor]), of the places of the
    application that turn a risk score into a risk level, of the
    [useRiskAssessment] hook that calls the utility and of the risk panel
    that adjusts the score, followed by the properties of the scoring engine
    and of its callers.

    Conventions of the embedding.

    - A JavaScript [number] is a rational ([Q]).  Every number the scoring
      code manipulates is a small dyadic rational (scores are integers, the
      weights are 3, 2 and 2.5, the total weight is 10) or the quotient of
      such a number by the total weight, so the IEEE-754 sums and products
      are exact and the one division is off by far less than the distance
      (at least 1/20) of the exact quotient from the nearest half-integer:
      [Math.round] of the double and of the exact quotient agree.  [NaN] and
      the infinities are outside the model.
    - A JavaScript string is a [string]; non-ASCII characters are their
      UTF-8 bytes.  Substring search on well-formed UTF-8 agrees with
      substring search on UTF-16 code units.
    - [new Date()] reads the system clock.  The clock reading is an explicit
      argument [now : Date] of every function that performs it. *)

From Stdlib Require Import ZArith QArith Qround Lqa Lia List String Bool.
Import ListNotations.

Open Scope string_scope.
Open Scope list_scope.
Open Scope Q_scope.

(** ** The fragment of the JavaScript runtime the module uses *)

Module Js.

Definition number := Q.

(** [x >= y] on numbers. *)
Definition ge (x y : number) : bool := Qle_bool y x.

(** [Math.round(x)]: the nearest integer, ties towards plus infinity. *)
Definition Math_round (x : number) : number :=
  inject_Z (Qfloor (x + (1 # 2))).

Definition Math_max (x y : number) : number := if Qle_bool x y then y else x.
Definition Math_min (x y : number) : number := if Qle_bool x y then x else y.

(** [s.includes(t)]: [t] occurs in [s] at some position. *)
Fixpoint includes (s t : string) : bool :=
  if String.prefix t s then true
  else match s with
       | EmptyString => false
       | String _ rest => includes rest t
       end.

(** [xs.some(p)]. *)
Definition some {A : Type} (p : A -> bool) (xs : list A) : bool :=
  existsb p xs.

(** [xs.reduce(f, init)]. *)
Definition reduce {A B : Type} (f : B -> A -> B) (init : B) (xs : list A) : B :=
  fold_left f xs init.

(** Truthiness of an optional string: [undefined] and [''] are falsy. *)
Definition truthy (o : option string) : bool :=
  match o with
  | Some s => negb (String.eqb s EmptyString)
  | None => false
  end.

(** The calendar fields of the instant at which [new Date()] is evaluated. *)
Record Date : Type := mkDate {
  getFullYear : Z;
  getMonth : Z;
  getDate : Z
}.

End Js.

(** ** utils/riskScoring *)

Module RiskScoring.

Import Js.

(** The union type ['high' | 'medium' | 'low'], used both for the impact of
    a factor and for the risk level of an assessment. *)
Inductive Level : Type := high | medium | low.

Definition Level_eqb (a b : Level) : bool :=
  match a, b with
  | high, high | medium, medium | low, low => true
  | _, _ => false
  end.

Record RiskFactor : Type := mkRiskFactor {
  name : string;
  weight : number;
  score : number;
  impact : Level;
  description : string;
  mitigation : option string
}.

Record RiskAssessmentResult : Type := mkRiskAssessmentResult {
  totalScore : number;
  riskLevel : Level;
  factors : list RiskFactor;
  potentialIssues : list string;
  mitigationStrategies : list string
}.

Definition majorLabels : list string :=
  [ "Universal"; "Sony"; "Warner"; "EMI"; "Columbia"; "Atlantic";
    "Interscope"; "Capitol"; "Def Jam"; "RCA"; "Republic"; "Polydor" ].

(** Assess risk based on label ownership. *)
Definition assessLabelRisk (label : string) : RiskFactor :=
  let isMajorLabel := some (fun major => includes label major) majorLabels in
  {| name := "Label Ownership";
     weight := 3;
     score := if isMajorLabel then 80 else 40;
     impact := if isMajorLabel then high else medium;
     description :=
       if isMajorLabel
       then "The sample is owned by a major label, which typically have stricter clearance processes and higher fees."
       else "The sample is owned by an independent label, which may be more flexible with clearance terms.";
     mitigation :=
       Some (if isMajorLabel
             then "Consider budgeting for higher licensing fees or exploring alternative samples."
             else "Reach out directly to the label with a personalized approach.") |}.

(** Assess risk based on track age. *)
Definition assessAgeRisk (now : Date) (releaseYear : number) : RiskFactor :=
  let currentYear := inject_Z (getFullYear now) in
  let age := currentYear - releaseYear in
  let '(score, impact, description, mitigation) :=
    if ge age 70 then
      (20, low,
       "The track may be approaching public domain in some jurisdictions.",
       "Research public domain status in your jurisdiction, as this may simplify clearance.")
    else if ge age 50 then
      (30, low,
       "The track has established clearance precedents and may have more accessible rights holders.",
       "Look for previous clearance examples to establish reasonable terms.")
    else if ge age 30 then
      (40, medium,
       "The track is well-established but still actively protected.",
       "Approach with standard clearance procedures and reasonable offer terms.")
    else if ge age 10 then
      (60, medium,
       "The track is relatively recent and likely actively managed by rights holders.",
       "Prepare a compelling case for your creative use and be ready to negotiate terms.")
    else
      (75, high,
       "The track is very recent and may have heightened protection from rights holders.",
       "Consider offering higher royalty percentages or creative control to increase chances of approval.")
  in
  {| name := "Track Age";
     weight := 2;
     score := score;
     impact := impact;
     description := description;
     mitigation := Some mitigation |}.

Definition veryPopularArtists : list string :=
  [ "Michael Jackson"; "The Beatles"; "Queen"; "Madonna"; "Beyoncé";
    "Drake"; "Taylor Swift"; "Ed Sheeran"; "Rihanna"; "Adele";
    "James Brown"; "Prince"; "David Bowie"; "Whitney Houston" ].

Definition popularArtists : list string :=
  [ "Coldplay"; "Radiohead"; "Kendrick Lamar"; "Daft Punk"; "The Weeknd";
    "Alicia Keys"; "Justin Timberlake"; "Kanye West"; "Lady Gaga" ].

(** Assess risk based on artist popularity. *)
Definition assessPopularityRisk (artist : string) : RiskFactor :=
  let '(score, impact, description, mitigation) :=
    if some (fun a => includes artist a) veryPopularArtists then
      (85, high,
       "The artist is highly popular with significant commercial value and likely strict sample clearance policies.",
       "Be prepared for higher licensing fees and consider legal representation for negotiations.")
    else if some (fun a => includes artist a) popularArtists then
      (65, medium,
       "The artist is well-known with established commercial value and standard clearance procedures.",
       "Approach with professional clearance request and reasonable offer terms.")
    else
      (35, low,
       "The artist is less mainstream, which may simplify the clearance process.",
       "Direct contact with the artist or their management may yield more favorable terms.")
  in
  {| name := "Artist Popularity";
     weight := 2.5;
     score := score;
     impact := impact;
     description := description;
     mitigation := Some mitigation |}.

Definition frequentlySampledTracks : list string :=
  [ "Funky Drummer"; "Amen Break"; "Think"; "La Di Da Di";
    "Apache"; "Impeach the President"; "Synthetic Substitution";
    "Change the Beat"; "Bring the Noise"; "When the Levee Breaks" ].

Definition moderatelySampledTracks : list string :=
  [ "The Payback"; "Footsteps in the Dark"; "Nautilus";
    "Funky President"; "More Bounce to the Ounce";
    "Ain't No Sunshine"; "Darkest Light" ].

(** Assess risk based on previous sample usage. *)
Definition assessPreviousUsageRisk (track : string) : RiskFactor :=
  let '(score, impact, description, mitigation) :=
    if some (fun t => includes track t) frequentlySampledTracks then
      (70, high,
       "This track has been frequently sampled, which may indicate established clearance procedures but also potential fatigue from rights holders.",
       "Research previous clearance examples to understand typical terms and prepare a unique creative case for your usage.")
    else if some (fun t => includes track t) moderatelySampledTracks then
      (50, medium,
       "This track has been sampled several times, suggesting clearance is possible but may require negotiation.",
       "Look for precedents in similar genres and prepare a professional clearance request.")
    else
      (30, low,
       "This track has not been widely sampled, which may indicate fewer precedents but potentially more openness from rights holders.",
       "Emphasize the creative and respectful use of the sample in your clearance request.")
  in
  {| name := "Previous Sample Usage";
     weight := 2.5;
     score := score;
     impact := impact;
     description := description;
     mitigation := Some mitigation |}.

(** Generate potential issues based on risk level and factors. *)
Definition generatePotentialIssues
    (riskLevel : Level) (factors : list RiskFactor) : list string :=
  let highImpactFactors :=
    filter (fun factor => Level_eqb (impact factor) high) factors in
  match riskLevel with
  | high =>
      [ "Major label ownership may require higher licensing fees";
        "Popular track with previous clearance challenges";
        "Multiple rights holders may complicate negotiations" ]
      ++ map (fun factor =>
                (name factor ++ " presents significant challenges: "
                   ++ description factor)%string)
             highImpactFactors
  | medium =>
      [ "Some negotiation may be required for favorable terms";
        "Rights holder may request creative control over usage";
        "Approval process may take several weeks" ]
      ++ map (fun factor =>
                (name factor ++ " presents challenges: "
                   ++ description factor)%string)
             highImpactFactors
  | low =>
      [ "Standard clearance process should be straightforward";
        "Reasonable licensing fees expected";
        "Quick turnaround time likely" ]
  end.

(** [factor.mitigation as string]: a type assertion, applied only to the
    factors that passed the truthiness filter. *)
Definition as_string (o : option string) : string :=
  match o with
  | Some s => s
  | None => EmptyString
  end.

(** Calculate risk score based on various factors. *)
Definition calculateRiskScore
    (now : Date)
    (sourceTrack originalArtist rightsHolder : string)
    (releaseYear : number) (label : string) : RiskAssessmentResult :=
  let labelFactor := assessLabelRisk label in
  let ageFactor := assessAgeRisk now releaseYear in
  let popularityFactor := assessPopularityRisk originalArtist in
  let usageFactor := assessPreviousUsageRisk sourceTrack in
  let factors := [labelFactor; ageFactor; popularityFactor; usageFactor] in
  let totalWeight :=
    reduce (fun sum factor => sum + weight factor) 0 factors in
  let weightedScore :=
    reduce (fun sum factor => sum + score factor * weight factor) 0 factors
    / totalWeight in
  let totalScore := Math_round weightedScore in
  let riskLevel :=
    if ge totalScore 70 then high
    else if ge totalScore 40 then medium
    else low in
  let potentialIssues := generatePotentialIssues riskLevel factors in
  let mitigationStrategies :=
    map (fun factor => as_string (mitigation factor))
        (filter (fun factor => truthy (mitigation factor)) factors) in
  {| totalScore := totalScore;
     riskLevel := riskLevel;
     factors := factors;
     potentialIssues := potentialIssues;
     mitigationStrategies := mitigationStrategies |}.

Record LevelColor : Type := mkLevelColor {
  level : string;
  color : string;
  bg : string
}.

(** Get risk level color. *)
Definition getRiskLevelColor (score : number) : LevelColor :=
  if ge score 70 then
    {| level := "High"; color := "text-red-500"; bg := "bg-red-100" |}
  else if ge score 40 then
    {| level := "Medium"; color := "text-yellow-500"; bg := "bg-yellow-100" |}
  else
    {| level := "Low"; color := "text-green-500"; bg := "bg-green-100" |}.

End RiskScoring.

(** ** The other places that turn a score into a level *)

Module Consumers.

Import Js RiskScoring.

(** hooks/useRiskAssessment, [updateRiskScore]: the clamped score and the
    level stored with it. *)
Definition updateRiskScore (score : number) : number * Level :=
  let newScore := Math_max 0 (Math_min 100 score) in
  (newScore,
   if ge newScore 70 then high else if ge newScore 40 then medium else low).

(** hooks/useRiskAssessment, [getRiskLevelColor], on the hook's
    [riskScore] state. *)
Definition hook_getRiskLevelColor (riskScore : number) : LevelColor :=
  if ge riskScore 70 then
    {| level := "High"; color := "text-red-500"; bg := "bg-red-100" |}
  else if ge riskScore 40 then
    {| level := "Medium"; color := "text-yellow-500"; bg := "bg-yellow-100" |}
  else
    {| level := "Low"; color := "text-green-500"; bg := "bg-green-100" |}.

(** The risk-assessment panel and the sample-identification page,
    [getRiskLevel] (the same text in both). *)
Definition getRiskLevel (score : number) : LevelColor :=
  if ge score 70 then
    {| level := "High"; color := "text-red-500"; bg := "bg-red-100" |}
  else if ge score 40 then
    {| level := "Medium"; color := "text-yellow-500"; bg := "bg-yellow-100" |}
  else
    {| level := "Low"; color := "text-green-500"; bg := "bg-green-100" |}.

(** [!score] for an optional number: [undefined] and [0] are falsy. *)
Definition falsy (score : option number) : bool :=
  match score with
  | Some s => Qeq_bool s 0
  | None => true
  end.

(** The sample card, [getRiskBadge]: the label of the badge. *)
Definition getRiskBadge (score : option number) : string :=
  match score with
  | Some s =>
      if falsy score then "Unknown"
      else if ge s 70 then "High Risk"
      else if ge s 40 then "Medium Risk"
      else "Low Risk"
  | None => "Unknown"
  end.

End Consumers.

(** ** config/api: the feature flags *)

Module ApiConfig.

Record FeatureFlags : Type := mkFeatureFlags {
  useRealAudioAnalysis : bool;
  enableStripeIntegration : bool;
  enableAdvancedRiskAssessment : bool;
  enableRealTimeNegotiation : bool
}.

Definition FEATURE_FLAGS : FeatureFlags :=
  {| useRealAudioAnalysis := false;
     enableStripeIntegration := false;
     enableAdvancedRiskAssessment := true;
     enableRealTimeNegotiation := false |}.

End ApiConfig.

(** ** hooks/useRiskAssessment

    The hook keeps five pieces of state.  Its effect and its two update
    functions are state transitions; each returns the new state together
    with the arguments of the calls it makes to [onRiskScoreChange]. *)

Module UseRiskAssessment.

Import Js RiskScoring ApiConfig.

Record UseRiskAssessmentProps : Type := mkProps {
  sourceTrack : option string;
  originalArtist : option string;
  rightsHolder : option string;
  releaseYear : option number;
  label : option string;
  initialRiskScore : option number;
  (** whether an [onRiskScoreChange] callback is supplied *)
  onRiskScoreChange : bool
}.

Record State : Type := mkState {
  riskScore : number;
  riskLevel : Level;
  riskFactors : list RiskFactor;
  potentialIssues : list string;
  mitigationStrategies : list string
}.

(** A destructuring default: [x = d] in the parameter pattern. *)
Definition default {A : Type} (d : A) (o : option A) : A :=
  match o with
  | Some x => x
  | None => d
  end.

(** [initialRiskScore || 0]. *)
Definition or_zero (o : option number) : number :=
  match o with
  | Some s => if Qeq_bool s 0 then 0 else s
  | None => 0
  end.

(** [!s] for a string. *)
Definition empty (s : string) : bool := String.eqb s EmptyString.

(** The arguments of the calls to [onRiskScoreChange], when it is supplied. *)
Definition notify (p : UseRiskAssessmentProps) (score : number) : list number :=
  if onRiskScoreChange p then [score] else [].

(** The state of the first render. *)
Definition initialState (p : UseRiskAssessmentProps) : State :=
  {| riskScore := or_zero (initialRiskScore p);
     riskLevel := low;
     riskFactors := [];
     potentialIssues := [];
     mitigationStrategies := [] |}.

(** The effect that recalculates the score when the inputs change.
    [rendered] is the clock reading of the render, which fixes the default
    release year; [now] is the clock reading of the calculation. *)
Definition effect (flags : FeatureFlags) (rendered now : Date)
    (p : UseRiskAssessmentProps) (st : State) : State * list number :=
  let sourceTrack := default "" (sourceTrack p) in
  let originalArtist := default "" (originalArtist p) in
  let rightsHolder := default "" (rightsHolder p) in
  let releaseYear :=
    default (inject_Z (getFullYear rendered) - 10) (releaseYear p) in
  let label := default "" (label p) in
  if empty sourceTrack || empty originalArtist then (st, [])
  else
    let calculated :=
      let result :=
        calculateRiskScore now sourceTrack originalArtist rightsHolder
          releaseYear label in
      ({| riskScore := totalScore result;
          riskLevel := RiskScoring.riskLevel result;
          riskFactors := factors result;
          potentialIssues := RiskScoring.potentialIssues result;
          mitigationStrategies := RiskScoring.mitigationStrategies result |},
       notify p (totalScore result)) in
    match initialRiskScore p with
    | Some initial =>
        if negb (enableAdvancedRiskAssessment flags) then
          ({| riskScore := initial;
              riskLevel := if ge initial 70 then high
                           else if ge initial 40 then medium else low;
              riskFactors := riskFactors st;
              potentialIssues := potentialIssues st;
              mitigationStrategies := mitigationStrategies st |},
           [])
        else calculated
    | None => calculated
    end.

(** Update risk score manually. *)
Definition updateRiskScore (p : UseRiskAssessmentProps) (st : State)
    (score : number) : State * list number :=
  let newScore := Math_max 0 (Math_min 100 score) in
  ({| riskScore := newScore;
      riskLevel := if ge newScore 70 then high
                   else if ge newScore 40 then medium else low;
      riskFactors := riskFactors st;
      potentialIssues := potentialIssues st;
      mitigationStrategies := mitigationStrategies st |},
   notify p newScore).

(** [{ ...factor, score: newScore }]. *)
Definition with_score (factor : RiskFactor) (newScore : number) : RiskFactor :=
  {| name := name factor;
     weight := weight factor;
     score := newScore;
     impact := impact factor;
     description := description factor;
     mitigation := mitigation factor |}.

(** The factors after an adjustment of the factors called [factorName]. *)
Definition updatedFactors (factorName : string) (adjustment : number)
    (riskFactors : list RiskFactor) : list RiskFactor :=
  map (fun factor =>
         if String.eqb (name factor) factorName then
           let newScore := Math_max 0 (Math_min 100 (score factor + adjustment)) in
           with_score factor newScore
         else factor)
      riskFactors.

(** Update a specific risk factor.  The new total is a quotient by the total
    weight; when the total weight is zero (no factors yet) the quotient is
    not a finite number and the transition has no result in this model. *)
Definition updateRiskFactor (p : UseRiskAssessmentProps) (st : State)
    (factorName : string) (adjustment : number) : option (State * list number) :=
  let updatedFactors := updatedFactors factorName adjustment (riskFactors st) in
  let totalWeight :=
    reduce (fun sum factor => sum + weight factor) 0 updatedFactors in
  if Qeq_bool totalWeight 0 then None
  else
    let weightedScore :=
      reduce (fun sum factor => sum + score factor * weight factor) 0
        updatedFactors
      / totalWeight in
    let newTotalScore := Math_round weightedScore in
    Some ({| riskScore := newTotalScore;
             riskLevel := if ge newTotalScore 70 then high
                          else if ge newTotalScore 40 then medium else low;
             riskFactors := updatedFactors;
             potentialIssues := potentialIssues st;
             mitigationStrategies := mitigationStrategies st |},
          notify p newTotalScore).

(** Get high impact risk factors. *)
Definition getHighImpactFactors (st : State) : list RiskFactor :=
  filter (fun factor => Level_eqb (impact factor) high) (riskFactors st).

End UseRiskAssessment.

(** ** components/RiskAssessment: the risk panel

    The panel rebuilds its own list of factors from helper functions that
    repeat the look-up tables of the utility with another scale of scores. *)

Module RiskAssessmentPanel.

Import Js RiskScoring.

Record RiskFactor : Type := mkRiskFactor {
  id : string;
  name : string;
  score : number;
  impact : Level;
  description : string;
  mitigation : option string
}.

Record RiskAssessmentProps : Type := mkProps {
  riskScore : number;
  sourceTrack : string;
  rightsHolder : string;
  originalArtist : string;
  releaseYear : number;
  label : string;
  (** whether an [onUpdateRiskScore] callback is supplied *)
  onUpdateRiskScore : bool
}.

Definition isMajorLabel (label : string) : bool :=
  some (fun major => includes label major) majorLabels.

Definition getAgeScore (now : Date) (releaseYear : number) : number :=
  let currentYear := inject_Z (getFullYear now) in
  let age := currentYear - releaseYear in
  if ge age 70 then 5
  else if ge age 50 then 15
  else if ge age 30 then 25
  else if ge age 10 then 20
  else 15.

Definition getAgeImpact (now : Date) (releaseYear : number) : Level :=
  let currentYear := inject_Z (getFullYear now) in
  let age := currentYear - releaseYear in
  if ge age 50 then low
  else if ge age 20 then medium
  else medium.

Definition getAgeDescription (now : Date) (releaseYear : number) : string :=
  let currentYear := inject_Z (getFullYear now) in
  let age := currentYear - releaseYear in
  if ge age 70 then "which may be approaching public domain in some jurisdictions."
  else if ge age 50 then "which has established clearance precedents and may have more accessible rights holders."
  else if ge age 30 then "which is well-established but still actively protected."
  else if ge age 10 then "which is relatively recent and likely actively managed by rights holders."
  else "which is very recent and may have heightened protection from rights holders.".

Definition getAgeMitigation (now : Date) (releaseYear : number) : string :=
  let currentYear := inject_Z (getFullYear now) in
  let age := currentYear - releaseYear in
  if ge age 70 then "Research public domain status in your jurisdiction, as this may simplify clearance."
  else if ge age 50 then "Look for previous clearance examples to establish reasonable terms."
  else if ge age 30 then "Approach with standard clearance procedures and reasonable offer terms."
  else if ge age 10 then "Prepare a compelling case for your creative use and be ready to negotiate terms."
  else "Consider offering higher royalty percentages or creative control to increase chances of approval.".

Definition getPopularityScore (artist : string) : number :=
  if some (fun a => includes artist a) veryPopularArtists then 30
  else if some (fun a => includes artist a) popularArtists then 20
  else 10.

Definition getPopularityImpact (artist : string) : Level :=
  if some (fun a => includes artist a) veryPopularArtists then high
  else if some (fun a => includes artist a) popularArtists then medium
  else low.

Definition getPopularityDescription (artist : string) : string :=
  if some (fun a => includes artist a) veryPopularArtists then
    "a highly popular artist with significant commercial value and likely strict sample clearance policies."
  else if some (fun a => includes artist a) popularArtists then
    "a well-known artist with established commercial value and standard clearance procedures."
  else "a less mainstream artist, which may simplify the clearance process.".

Definition getPopularityMitigation (artist : string) : string :=
  if some (fun a => includes artist a) veryPopularArtists then
    "Be prepared for higher licensing fees and consider legal representation for negotiations."
  else if some (fun a => includes artist a) popularArtists then
    "Approach with professional clearance request and reasonable offer terms."
  else "Direct contact with the artist or their management may yield more favorable terms.".

Definition getPreviousUsageScore (track : string) : number :=
  if some (fun t => includes track t) frequentlySampledTracks then 25
  else if some (fun t => includes track t) moderatelySampledTracks then 15
  else 5.

Definition getPreviousUsageImpact (track : string) : Level :=
  if some (fun t => includes track t) frequentlySampledTracks then high
  else if some (fun t => includes track t) moderatelySampledTracks then medium
  else low.

Definition getPreviousUsageDescription (track : string) : string :=
  if some (fun t => includes track t) frequentlySampledTracks then
    "This track has been frequently sampled, which may indicate established clearance procedures but also potential fatigue from rights holders."
  else if some (fun t => includes track t) moderatelySampledTracks then
    "This track has been sampled several times, suggesting clearance is possible but may require negotiation."
  else "This track has not been widely sampled, which may indicate fewer precedents but potentially more openness from rights holders.".

Definition getPreviousUsageMitigation (track : string) : string :=
  if some (fun t => includes track t) frequentlySampledTracks then
    "Research previous clearance examples to understand typical terms and prepare a unique creative case for your usage."
  else if some (fun t => includes track t) moderatelySampledTracks then
    "Look for precedents in similar genres and prepare a professional clearance request."
  else "Emphasize the creative and respectful use of the sample in your clearance request.".

(** The factors the panel shows.  [show] renders a number inside a template
    string ([Number.prototype.toString]). *)
Definition riskFactors (show : number -> string) (now : Date)
    (p : RiskAssessmentProps) : list RiskFactor :=
  [ {| id := "major_label";
       name := "Major Label Ownership";
       score := if isMajorLabel (label p) then 25 else 10;
       impact := if isMajorLabel (label p) then high else low;
       description :=
         if isMajorLabel (label p)
         then "The sample is owned by a major label, which typically have stricter clearance processes and higher fees."
         else "The sample is owned by an independent label, which may be more flexible with clearance terms.";
       mitigation :=
         Some (if isMajorLabel (label p)
               then "Consider budgeting for higher licensing fees or exploring alternative samples."
               else "Reach out directly to the label with a personalized approach.") |};
    {| id := "track_age";
       name := "Track Age";
       score := getAgeScore now (releaseYear p);
       impact := getAgeImpact now (releaseYear p);
       description :=
         ("The original track was released in " ++ show (releaseYear p) ++ ", "
            ++ getAgeDescription now (releaseYear p))%string;
       mitigation := Some (getAgeMitigation now (releaseYear p)) |};
    {| id := "artist_popularity";
       name := "Artist Popularity";
       score := getPopularityScore (originalArtist p);
       impact := getPopularityImpact (originalArtist p);
       description :=
         (originalArtist p ++ " is "
            ++ getPopularityDescription (originalArtist p))%string;
       mitigation := Some (getPopularityMitigation (originalArtist p)) |};
    {| id := "sample_usage";
       name := "Previous Sample Usage";
       score := getPreviousUsageScore (sourceTrack p);
       impact := getPreviousUsageImpact (sourceTrack p);
       description := getPreviousUsageDescription (sourceTrack p);
       mitigation := Some (getPreviousUsageMitigation (sourceTrack p)) |} ].

(** Update risk score based on user adjustments: the arguments of the calls
    to [onUpdateRiskScore]. *)
Definition handleFactorAdjustment (show : number -> string) (now : Date)
    (p : RiskAssessmentProps) (factorId : string) (adjustment : number)
    : list number :=
  let riskFactors := riskFactors show now p in
  match find (fun f => String.eqb (id f) factorId) riskFactors with
  | None => []
  | Some factor =>
      if negb (onUpdateRiskScore p) then []
      else
        let currentFactorContribution := score factor in
        let newFactorContribution :=
          Math_max 0 (Math_min 100 (score factor + adjustment)) in
        let scoreDifference :=
          newFactorContribution - currentFactorContribution in
        let newRiskScore :=
          Math_max 0
            (Math_min 100
               (riskScore p
                + scoreDifference
                  / inject_Z (Z.of_nat (List.length riskFactors)))) in
        [Math_round newRiskScore]
  end.

End RiskAssessmentPanel.

(** ** The project workspace: the caller of the hook *)

Module ProjectWorkspace.

Import Js UseRiskAssessment.

(** [x || ''] for an optional string. *)
Definition or_empty (o : option string) : string :=
  match o with
  | Some s => s
  | None => EmptyString
  end.

(** The properties the workspace passes to [useRiskAssessment]: no release
    year and no label, and a callback that stores the score in the project. *)
Definition riskAssessmentProps
    (identifiedSourceTrack firstSegmentArtist rightsHolderInfo : option string)
    (projectRiskScore : option number) : UseRiskAssessmentProps :=
  {| sourceTrack := Some (or_empty identifiedSourceTrack);
     originalArtist := Some (or_empty firstSegmentArtist);
     rightsHolder := Some (or_empty rightsHolderInfo);
     releaseYear := None;
     label := None;
     initialRiskScore := projectRiskScore;
     onRiskScoreChange := true |}.

End ProjectWorkspace.

(** * Properties *)

Import Js RiskScoring.

(** ** Vocabulary of the specification *)

(** [frag] occurs in [s] as a contiguous, case-sensitive substring. *)
Definition occurs_in (frag s : string) : Prop :=
  exists pre post, s = (pre ++ frag ++ post)%string.

(** Some entry of a lookup table occurs in [s]. *)
Definition matches_table (table : list string) (s : string) : Prop :=
  exists frag, In frag table /\ occurs_in frag s.

(** The age of a track released in [releaseYear], seen at [now]. *)
Definition track_age (now : Date) (releaseYear : number) : number :=
  inject_Z (getFullYear now) - releaseYear.

(** The five age brackets of the track-age assessor, oldest first. *)
Inductive AgeBracket : Type :=
| AtLeast70 | From50 | From30 | From10 | Under10.

Definition age_bracket (age : number) : AgeBracket :=
  if Qle_bool 70 age then AtLeast70
  else if Qle_bool 50 age then From50
  else if Qle_bool 30 age then From30
  else if Qle_bool 10 age then From10
  else Under10.

(** Sum of [f] over a sequence of factors. *)
Definition sum_over (f : RiskFactor -> number) (fs : list RiskFactor) : number :=
  fold_right (fun x acc => f x + acc) 0 fs.

(** The weighted mean of the scores, as the data model states it. *)
Definition weighted_mean (fs : list RiskFactor) : number :=
  sum_over (fun f => score f * weight f) fs / sum_over weight fs.

(** A classifier [f] of scores answers [hi] from 70 up, [mid] from 40 up to
    70 (excluded) and [lo] below 40. *)
Definition uses_thresholds {A : Type} (f : number -> A) (hi mid lo : A) : Prop :=
  forall s : number,
    (f s = hi <-> 70 <= s) /\
    (f s = mid <-> 40 <= s /\ s < 70) /\
    (f s = lo <-> s < 40).

(** Score and impact attached to each age bracket. *)
Definition bracket_score (b : AgeBracket) : number :=
  match b with
  | AtLeast70 => 20
  | From50 => 30
  | From30 => 40
  | From10 => 60
  | Under10 => 75
  end.

Definition bracket_impact (b : AgeBracket) : Level :=
  match b with
  | AtLeast70 | From50 => low
  | From30 | From10 => medium
  | Under10 => high
  end.

(** A factor the aggregator can average: a score between 0 and 100 and a
    positive weight. *)
Definition well_scored (f : RiskFactor) : Prop :=
  0 <= score f /\ score f <= 100 /\ 0 < weight f.

(** Score, weight and impact of each factor, in order. *)
Definition profile (fs : list RiskFactor) : list (number * number * Level) :=
  map (fun f => (score f, weight f, impact f)) fs.

(** Number of factors whose impact is high. *)
Definition high_impact_count (fs : list RiskFactor) : nat :=
  List.length (filter (fun f => match impact f with high => true | _ => false end) fs).

(** Number of factors that carry a mitigation string. *)
Definition mitigation_count (fs : list RiskFactor) : nat :=
  List.length (filter (fun f => match mitigation f with Some _ => true | None => false end) fs).

(** The line reported for a high-impact factor at a given risk level. *)
Definition issue_line (lvl : Level) (f : RiskFactor) : string :=
  match lvl with
  | high => name f ++ " presents significant challenges: " ++ description f
  | _ => name f ++ " presents challenges: " ++ description f
  end.

(** The level of a score: high from 70, medium from 40, low below. *)
Definition level_of_score (s : number) : Level :=
  if ge s 70 then high else if ge s 40 then medium else low.

(** The level stored by the hook is the level of the score it stores. *)
Definition consistent (st : UseRiskAssessment.State) : Prop :=
  UseRiskAssessment.riskLevel st = level_of_score (UseRiskAssessment.riskScore st).

(** [v] is an integer between [lo] and [hi]. *)
Definition integer_between (lo hi : Z) (v : number) : Prop :=
  exists k : Z, v = inject_Z k /\ (lo <= k <= hi)%Z.

(** Two factors that differ at most in their score. *)
Definition same_but_score (f g : RiskFactor) : Prop :=
  name f = name g /\ weight f = weight g /\ impact f = impact g /\
  description f = description g /\ mitigation f = mitigation g.

(** [g] weighs as much as [f] and scores at least as much. *)
Definition scores_below (f g : RiskFactor) : Prop :=
  weight f = weight g /\ 0 <= weight f /\ score f <= score g.

(** ** The runtime fragment *)

Section JsFacts.

Lemma ge_true (x y : number) : ge x y = true <-> y <= x.
Proof. unfold ge. apply Qle_bool_iff. Qed.

Lemma ge_false (x y : number) : ge x y = false <-> x < y.
Proof.
  unfold ge. split; intro H.
  - apply Qnot_le_lt. intro Hle. apply Qle_bool_iff in Hle. congruence.
  - destruct (Qle_bool y x) eqn:E; [|reflexivity].
    apply Qle_bool_iff in E. lra.
Qed.

Lemma prefix_app (t s : string) :
  String.prefix t s = true <-> exists post, s = (t ++ post)%string.
Proof.
  revert s. induction t as [|c t IH]; intros s.
  - destruct s; simpl; (split; [intros _; eauto | intros _; reflexivity]).
  - destruct s as [|d s]; simpl.
    + split; [discriminate | intros [post H]; discriminate].
    + destruct (Ascii.ascii_dec c d) as [->|Hne].
      * rewrite IH. split; intros [post H]; exists post; congruence.
      * split; [discriminate | intros [post H]; congruence].
Qed.

Lemma includes_occurs (s t : string) :
  includes s t = true <-> occurs_in t s.
Proof.
  unfold occurs_in. induction s as [|c s IH]; cbn [includes].
  - destruct (String.prefix t "") eqn:E.
    + split; [intros _ | intros _; reflexivity].
      apply prefix_app in E. destruct E as [post E]. now exists "", post.
    + split; [discriminate|]. intros [pre [post H]].
      destruct pre; simpl in H.
      * assert (String.prefix t "" = true) by (apply prefix_app; eauto).
        congruence.
      * discriminate.
  - destruct (String.prefix t (String c s)) eqn:E.
    + split; [intros _ | intros _; reflexivity].
      apply prefix_app in E. destruct E as [post E]. now exists "", post.
    + rewrite IH. split; intros [pre [post H]].
      * exists (String c pre), post. simpl. now rewrite H.
      * destruct pre as [|d pre]; simpl in H.
        -- assert (String.prefix t (String c s) = true)
             by (apply prefix_app; eauto).
           congruence.
        -- exists pre, post. congruence.
Qed.

Lemma some_includes (table : list string) (s : string) :
  some (fun t => includes s t) table = true <-> matches_table table s.
Proof.
  unfold some, matches_table. rewrite existsb_exists.
  split; intros [frag [Hin H]]; exists frag; split; auto;
    now apply includes_occurs.
Qed.

Lemma some_includes_false (table : list string) (s : string) :
  some (fun t => includes s t) table = false <-> ~ matches_table table s.
Proof.
  rewrite <- some_includes.
  destruct (some _ table); split; congruence.
Qed.

Lemma reduce_sum (f : RiskFactor -> number) (fs : list RiskFactor) :
  reduce (fun sum factor => sum + f factor) 0 fs == sum_over f fs.
Proof.
  unfold reduce.
  assert (G : forall acc, fold_left (fun sum factor => sum + f factor) fs acc
                          == acc + sum_over f fs).
  { induction fs as [|x fs IH]; intros acc; simpl.
    - lra.
    - rewrite IH. lra. }
  rewrite G. lra.
Qed.

Lemma Math_round_comp (x y : number) :
  x == y -> Math_round x = Math_round y.
Proof.
  intros H. unfold Math_round. f_equal. apply Qfloor_comp. now rewrite H.
Qed.

Lemma Math_round_range (x : number) (lo hi : Z) :
  inject_Z lo <= x -> x <= inject_Z hi ->
  exists n : Z, Math_round x = inject_Z n /\ (lo <= n <= hi)%Z.
Proof.
  intros Hlo Hhi. exists (Qfloor (x + (1 # 2))). split; [reflexivity|].
  split.
  - rewrite <- (Qfloor_Z lo). apply Qfloor_resp_le.
    generalize dependent (inject_Z lo). intros q Hq. lra.
  - assert (H : (Qfloor (x + (1 # 2)) < hi + 1)%Z).
    { rewrite Zlt_Qlt. eapply Qle_lt_trans; [apply Qfloor_le|].
      rewrite inject_Z_plus. change (inject_Z 1) with 1.
      generalize dependent (inject_Z hi). intros q Hq. lra. }
    lia.
Qed.

End JsFacts.

(** ** The track-age assessor *)

(** Case analysis on every comparison [x >= y] the goal branches on,
    recording each outcome as an order fact. *)
Ltac split_ge :=
  repeat match goal with
         | |- context [ge ?a ?b] =>
             let E := fresh "E" in
             destruct (ge a b) eqn:E;
             [apply ge_true in E | apply ge_false in E]
         end.

Ltac split_Qle_bool :=
  repeat match goal with
         | |- context [Qle_bool ?a ?b] =>
             let E := fresh "E" in
             destruct (Qle_bool a b) eqn:E;
             [apply (ge_true b a) in E | apply (ge_false b a) in E]
         end.

Section AgeFacts.

Variable now : Date.

Lemma age_bracket_cases (age : number) :
  (70 <= age /\ age_bracket age = AtLeast70) \/
  (50 <= age /\ age < 70 /\ age_bracket age = From50) \/
  (30 <= age /\ age < 50 /\ age_bracket age = From30) \/
  (10 <= age /\ age < 30 /\ age_bracket age = From10) \/
  (age < 10 /\ age_bracket age = Under10).
Proof.
  unfold age_bracket. split_Qle_bool; tauto.
Qed.

Lemma assessAgeRisk_by_bracket (releaseYear : number) :
  let f := assessAgeRisk now releaseYear in
  let b := age_bracket (track_age now releaseYear) in
  weight f = 2 /\ score f = bracket_score b /\ impact f = bracket_impact b.
Proof.
  unfold assessAgeRisk, age_bracket, track_age, ge.
  set (age := inject_Z (getFullYear now) - releaseYear).
  destruct (Qle_bool 70 age); [now cbn|].
  destruct (Qle_bool 50 age); [now cbn|].
  destruct (Qle_bool 30 age); [now cbn|].
  destruct (Qle_bool 10 age); now cbn.
Qed.

Lemma age_bracket_at (age lo : number) (b : AgeBracket) :
  age == lo -> age_bracket lo = b -> age_bracket age = b.
Proof.
  intros H <-. unfold age_bracket.
  assert (E : forall c, Qle_bool c age = Qle_bool c lo)
    by (intros c; now rewrite H).
  now rewrite !E.
Qed.

Lemma track_age_back (d : number) :
  track_age now (inject_Z (getFullYear now) - d) == d.
Proof. unfold track_age. ring. Qed.

Lemma bracket_score_antitone (a1 a2 : number) :
  a2 <= a1 -> bracket_score (age_bracket a1) <= bracket_score (age_bracket a2).
Proof.
  intros H.
  destruct (age_bracket_cases a1) as [[? ->]|[[? [? ->]]|[[? [? ->]]|[[? [? ->]]|[? ->]]]]];
  destruct (age_bracket_cases a2) as [[? ->]|[[? [? ->]]|[[? [? ->]]|[[? [? ->]]|[? ->]]]]];
    cbn [bracket_score]; lra.
Qed.

End AgeFacts.

(** C4.  For every release year, with [age = currentYear - releaseYear], the
    age factor has weight 2 and carries the score and impact of the first
    bracket satisfied in the order 70, 50, 30, 10: 20/low from 70 up, 30/low
    from 50, 40/medium from 30, 60/medium from 10, and 75/high below 10,
    which is where every negative age (a release year in the future) lands.
    At the boundaries: ages 70, 69, 50, 49, 30, 29, 10, 9 score 20, 30, 30,
    40, 40, 60, 60, 75. *)
Theorem assessAgeRisk_brackets (now : Date) :
  (forall releaseYear : number,
     let age := track_age now releaseYear in
     let f := assessAgeRisk now releaseYear in
     weight f = 2 /\
     ((70 <= age /\ score f = 20 /\ impact f = low) \/
      (50 <= age /\ age < 70 /\ score f = 30 /\ impact f = low) \/
      (30 <= age /\ age < 50 /\ score f = 40 /\ impact f = medium) \/
      (10 <= age /\ age < 30 /\ score f = 60 /\ impact f = medium) \/
      (age < 10 /\ score f = 75 /\ impact f = high))) /\
  (forall ahead : positive,
     let f := assessAgeRisk now (inject_Z (getFullYear now + Zpos ahead)) in
     track_age now (inject_Z (getFullYear now + Zpos ahead)) < 0 /\
     score f = 75 /\ impact f = high) /\
  (let at_age (a : number) :=
     score (assessAgeRisk now (inject_Z (getFullYear now) - a)) in
   at_age 70 = 20 /\ at_age 69 = 30 /\ at_age 50 = 30 /\ at_age 49 = 40 /\
   at_age 30 = 40 /\ at_age 29 = 60 /\ at_age 10 = 60 /\ at_age 9 = 75).
Proof.
  split; [|split].
  - intros releaseYear age f.
    destruct (assessAgeRisk_by_bracket now releaseYear) as [Hw [Hs Hi]].
    fold f in Hw, Hs, Hi. fold age in Hs, Hi.
    split; [exact Hw|]. rewrite Hs, Hi.
    destruct (age_bracket_cases age)
      as [[? ->]|[[? [? ->]]|[[? [? ->]]|[[? [? ->]]|[? ->]]]]]; cbn; tauto.
  - intros ahead f.
    assert (Hneg : track_age now (inject_Z (getFullYear now + Z.pos ahead)) < 0).
    { unfold track_age. rewrite inject_Z_plus.
      assert (0 < inject_Z (Z.pos ahead)) by reflexivity.
      generalize dependent (inject_Z (Z.pos ahead)).
      generalize (inject_Z (getFullYear now)). intros; lra. }
    split; [exact Hneg|].
    destruct (assessAgeRisk_by_bracket now
                (inject_Z (getFullYear now + Z.pos ahead))) as [_ [Hs Hi]].
    fold f in Hs, Hi. rewrite Hs, Hi.
    destruct (age_bracket_cases
                (track_age now (inject_Z (getFullYear now + Z.pos ahead))))
      as [[? ->]|[[? [? ->]]|[[? [? ->]]|[[? [? ->]]|[? ->]]]]];
      cbn; try tauto; lra.
  - cbv zeta.
    repeat split;
      match goal with
      | |- score (assessAgeRisk now (?cy - ?a)) = _ =>
          destruct (assessAgeRisk_by_bracket now (cy - a)) as [_ [-> _]];
          rewrite (age_bracket_at (track_age now (cy - a)) a
                     (age_bracket a) (track_age_back now a) eq_refl);
          reflexivity
      end.
Qed.

(** C10, as stated, fails: seen from 2024, a 1950 release (age 74) and a 2020
    release (age 4) fall in different brackets, and the older one does not
    score at least as high as the newer one (20 against 75). *)
Lemma age_score_order_counterexample :
  let now := mkDate 2024 0 1 in
  1950 < 2020 /\
  age_bracket (track_age now 1950) <> age_bracket (track_age now 2020) /\
  ~ (score (assessAgeRisk now 2020) <= score (assessAgeRisk now 1950)).
Proof.
  cbv zeta. split; [reflexivity|]. split.
  - vm_compute. discriminate.
  - vm_compute. intros H. apply H. reflexivity.
Qed.

(** C10, amended.  For two release years [y1 < y2] seen in the same current
    year whose ages fall in different brackets, the age-factor score for the
    older year [y1] is at most the score for [y2]. *)
Theorem age_score_order (now : Date) (y1 y2 : number) :
  y1 < y2 ->
  age_bracket (track_age now y1) <> age_bracket (track_age now y2) ->
  score (assessAgeRisk now y1) <= score (assessAgeRisk now y2).
Proof.
  intros Hlt _.
  destruct (assessAgeRisk_by_bracket now y1) as [_ [-> _]].
  destruct (assessAgeRisk_by_bracket now y2) as [_ [-> _]].
  apply bracket_score_antitone. unfold track_age.
  generalize (inject_Z (getFullYear now)). intros; lra.
Qed.

Lemma age_score_order_witness :
  1950 < 2020 /\
  score (assessAgeRisk (mkDate 2024 0 1) 1950)
  <= score (assessAgeRisk (mkDate 2024 0 1) 2020).
Proof.
  split; [reflexivity|].
  apply (age_score_order (mkDate 2024 0 1) 1950 2020).
  - reflexivity.
  - vm_compute. discriminate.
Defined.

Lemma age_score_strict (now : Date) (y1 y2 : number) :
  y1 < y2 ->
  age_bracket (track_age now y1) <> age_bracket (track_age now y2) ->
  score (assessAgeRisk now y1) < score (assessAgeRisk now y2).
Proof.
  intros Hlt Hne.
  destruct (assessAgeRisk_by_bracket now y1) as [_ [-> _]].
  destruct (assessAgeRisk_by_bracket now y2) as [_ [-> _]].
  assert (Hage : track_age now y2 < track_age now y1).
  { unfold track_age. generalize (inject_Z (getFullYear now)). intros; lra. }
  revert Hne Hage.
  generalize (track_age now y1) (track_age now y2). intros a1 a2 Hne Hage.
  destruct (age_bracket_cases a1) as [[? E1]|[[? [? E1]]|[[? [? E1]]|[[? [? E1]]|[? E1]]]]];
  destruct (age_bracket_cases a2) as [[? E2]|[[? [? E2]]|[[? [? E2]]|[[? [? E2]]|[? E2]]]]];
    rewrite E1, E2 in *; cbn [bracket_score];
    solve [ reflexivity | congruence | lra ].
Qed.

(** ** The label assessor *)

Section LabelFacts.

Variable label : string.

Lemma assessLabelRisk_major :
  matches_table majorLabels label ->
  let f := assessLabelRisk label in
  score f = 80 /\ weight f = 3 /\ impact f = high.
Proof.
  intros H. apply some_includes in H.
  unfold assessLabelRisk. cbv zeta. rewrite H. cbn. auto.
Qed.

Lemma assessLabelRisk_other :
  ~ matches_table majorLabels label ->
  let f := assessLabelRisk label in
  score f = 40 /\ weight f = 3 /\ impact f = medium.
Proof.
  intros H. apply some_includes_false in H.
  unfold assessLabelRisk. cbv zeta. rewrite H. cbn. auto.
Qed.

Lemma matches_table_dec (table : list string) :
  matches_table table label \/ ~ matches_table table label.
Proof.
  destruct (some (fun t => includes label t) table) eqn:E.
  - left. now apply some_includes.
  - right. now apply some_includes_false.
Qed.

End LabelFacts.

(** C5, as stated, fails on the weight of the non-major branch: the label
    "Indie Records Co" contains no major-label fragment, and its factor is
    not (score 40, weight 2, impact medium): the weight is 3. *)
Lemma assessLabelRisk_weight_counterexample :
  let f := assessLabelRisk "Indie Records Co" in
  ~ matches_table majorLabels "Indie Records Co" /\
  ~ (score f = 40 /\ weight f == 2 /\ impact f = medium).
Proof.
  cbv zeta. split.
  - apply some_includes_false. vm_compute. reflexivity.
  - intros [_ [H _]]. vm_compute in H. discriminate.
Qed.

(** C5, amended.  A label is classified as major exactly when it contains,
    as a case-sensitive substring, one of the twelve fragments Universal,
    Sony, Warner, EMI, Columbia, Atlantic, Interscope, Capitol, Def Jam, RCA,
    Republic, Polydor.  A major label yields score 80, weight 3, impact
    high; any other label, the empty string included, yields score 40,
    weight 3, impact medium.  "Universal Music Group" yields 80/high and
    "Indie Records Co" yields 40/medium. *)
Theorem assessLabelRisk_classifies :
  majorLabels =
    [ "Universal"; "Sony"; "Warner"; "EMI"; "Columbia"; "Atlantic";
      "Interscope"; "Capitol"; "Def Jam"; "RCA"; "Republic"; "Polydor" ] /\
  (forall label : string,
     let f := assessLabelRisk label in
     (impact f = high <-> matches_table majorLabels label) /\
     ((matches_table majorLabels label /\
       score f = 80 /\ weight f = 3 /\ impact f = high) \/
      (~ matches_table majorLabels label /\
       score f = 40 /\ weight f = 3 /\ impact f = medium))) /\
  (let f := assessLabelRisk "" in
   ~ matches_table majorLabels "" /\
   score f = 40 /\ weight f = 3 /\ impact f = medium) /\
  (let f := assessLabelRisk "Universal Music Group" in
   score f = 80 /\ weight f = 3 /\ impact f = high) /\
  (let f := assessLabelRisk "Indie Records Co" in
   score f = 40 /\ weight f = 3 /\ impact f = medium).
Proof.
  split; [reflexivity|]. split; [|split; [|split]].
  - intros label f.
    destruct (matches_table_dec label majorLabels) as [H|H].
    + destruct (assessLabelRisk_major label H) as [Hs [Hw Hi]]. fold f in Hs, Hw, Hi.
      split; [now rewrite Hi | left; auto].
    + destruct (assessLabelRisk_other label H) as [Hs [Hw Hi]]. fold f in Hs, Hw, Hi.
      split; [rewrite Hi; split; [discriminate | tauto] | right; auto].
  - cbv zeta. split.
    + apply some_includes_false. vm_compute. reflexivity.
    + vm_compute. auto.
  - vm_compute. auto.
  - vm_compute. auto.
Qed.

(** ** The aggregator *)

(** Case analysis on every condition the goal branches on. *)
Ltac split_if :=
  repeat match goal with
         | |- context [if ?b then _ else _] => destruct b
         end.

Section AggregatorFacts.

Lemma sum_over_bounds (fs : list RiskFactor) :
  Forall well_scored fs ->
  0 <= sum_over weight fs /\
  0 <= sum_over (fun f => score f * weight f) fs /\
  sum_over (fun f => score f * weight f) fs <= 100 * sum_over weight fs.
Proof.
  induction 1 as [|f fs [Hs0 [Hs1 Hw]] _ [IHw [IH0 IH1]]]; cbn [sum_over fold_right].
  - lra.
  - fold (sum_over weight fs). fold (sum_over (fun f => score f * weight f) fs).
    assert (0 <= score f * weight f) by (apply Qmult_le_0_compat; lra).
    assert (0 <= (100 - score f) * weight f) by (apply Qmult_le_0_compat; lra).
    repeat split; lra.
Qed.

Lemma sum_over_weight_pos (f : RiskFactor) (fs : list RiskFactor) :
  Forall well_scored (f :: fs) -> 0 < sum_over weight (f :: fs).
Proof.
  intros H. inversion H as [|? ? [_ [_ Hw]] Hfs]; subst.
  destruct (sum_over_bounds fs Hfs) as [H0 _].
  cbn [sum_over fold_right]. fold (sum_over weight fs). lra.
Qed.

Lemma weighted_mean_bounds (f : RiskFactor) (fs : list RiskFactor) :
  Forall well_scored (f :: fs) ->
  0 <= weighted_mean (f :: fs) /\ weighted_mean (f :: fs) <= 100.
Proof.
  intros H. unfold weighted_mean.
  pose proof (sum_over_weight_pos f fs H) as Hpos.
  destruct (sum_over_bounds (f :: fs) H) as [_ [H0 H1]].
  split.
  - apply Qle_shift_div_l; [exact Hpos | lra].
  - apply Qle_shift_div_r; [exact Hpos | exact H1].
Qed.

Lemma assessLabelRisk_well_scored (label : string) :
  well_scored (assessLabelRisk label).
Proof.
  unfold well_scored, assessLabelRisk. cbv zeta. split_if; cbn; repeat split; lra.
Qed.

Lemma assessAgeRisk_well_scored (now : Date) (releaseYear : number) :
  well_scored (assessAgeRisk now releaseYear).
Proof.
  unfold well_scored, assessAgeRisk. split_if; cbn; repeat split; lra.
Qed.

Lemma assessPopularityRisk_well_scored (artist : string) :
  well_scored (assessPopularityRisk artist).
Proof.
  unfold well_scored, assessPopularityRisk. split_if; cbn; repeat split; lra.
Qed.

Lemma assessPreviousUsageRisk_well_scored (track : string) :
  well_scored (assessPreviousUsageRisk track).
Proof.
  unfold well_scored, assessPreviousUsageRisk. split_if; cbn; repeat split; lra.
Qed.

Lemma totalScore_weighted_mean
    (now : Date) (sourceTrack originalArtist rightsHolder : string)
    (releaseYear : number) (label : string) :
  let r := calculateRiskScore now sourceTrack originalArtist rightsHolder
             releaseYear label in
  totalScore r = Math_round (weighted_mean (factors r)).
Proof.
  cbv zeta. unfold calculateRiskScore. cbn [totalScore factors].
  apply Math_round_comp. unfold weighted_mean.
  now rewrite !reduce_sum.
Qed.

End AggregatorFacts.

(** C1.  For every input, the total score is the rounded weighted mean
    [round (sum of score * weight / sum of weight)] over the four factors of
    the result, and it is an integer between 0 and 100. *)
Theorem calculateRiskScore_totalScore
    (now : Date) (sourceTrack originalArtist rightsHolder : string)
    (releaseYear : number) (label : string) :
  let r := calculateRiskScore now sourceTrack originalArtist rightsHolder
             releaseYear label in
  factors r = [ assessLabelRisk label; assessAgeRisk now releaseYear;
                assessPopularityRisk originalArtist;
                assessPreviousUsageRisk sourceTrack ] /\
  totalScore r =
    Math_round (sum_over (fun f => score f * weight f) (factors r)
                / sum_over weight (factors r)) /\
  exists n : Z, totalScore r = inject_Z n /\ (0 <= n <= 100)%Z.
Proof.
  intros r. split; [reflexivity|].
  pose proof (totalScore_weighted_mean now sourceTrack originalArtist
                rightsHolder releaseYear label) as Hmean.
  fold r in Hmean. split; [exact Hmean|]. rewrite Hmean.
  assert (Hb : 0 <= weighted_mean (factors r) /\ weighted_mean (factors r) <= 100).
  { apply weighted_mean_bounds.
    apply Forall_cons; [apply assessLabelRisk_well_scored|].
    apply Forall_cons; [apply assessAgeRisk_well_scored|].
    apply Forall_cons; [apply assessPopularityRisk_well_scored|].
    apply Forall_cons; [apply assessPreviousUsageRisk_well_scored|].
    apply Forall_nil. }
  apply (Math_round_range _ 0 100); [exact (proj1 Hb) | exact (proj2 Hb)].
Qed.

(** ** End-to-end scenarios *)

Section Scenarios.

Variable now : Date.

Lemma assessAgeRisk_same_age (now' : Date) (y y' : number) :
  track_age now y == track_age now' y' ->
  assessAgeRisk now y = assessAgeRisk now' y'.
Proof.
  unfold track_age, assessAgeRisk, ge. intros H. cbv zeta.
  assert (E : forall c, Qle_bool c (inject_Z (getFullYear now) - y)
                        = Qle_bool c (inject_Z (getFullYear now') - y'))
    by (intros c; now rewrite H).
  now rewrite !E.
Qed.

Lemma assessAgeRisk_current_year :
  assessAgeRisk now (inject_Z (getFullYear now))
  = assessAgeRisk (mkDate 0 0 1) 0.
Proof.
  apply assessAgeRisk_same_age. unfold track_age. cbn [getFullYear]. ring.
Qed.

(** Each assessor has finitely many outcomes; one input per outcome
    stands for all the inputs that reach it. *)

Lemma assessLabelRisk_cases (label : string) :
  assessLabelRisk label = assessLabelRisk "Sony" \/
  assessLabelRisk label = assessLabelRisk "".
Proof.
  unfold assessLabelRisk at 1 3. cbv zeta.
  destruct (some _ majorLabels); [left | right]; reflexivity.
Qed.

Lemma assessAgeRisk_cases (releaseYear : number) :
  let year0 := mkDate 0 0 1 in
  assessAgeRisk now releaseYear = assessAgeRisk year0 (-70) \/
  assessAgeRisk now releaseYear = assessAgeRisk year0 (-50) \/
  assessAgeRisk now releaseYear = assessAgeRisk year0 (-30) \/
  assessAgeRisk now releaseYear = assessAgeRisk year0 (-10) \/
  assessAgeRisk now releaseYear = assessAgeRisk year0 0.
Proof.
  cbv zeta. unfold assessAgeRisk at 1 3 5 7 9. cbv zeta.
  destruct (ge _ 70); [now left|].
  destruct (ge _ 50); [now right; left|].
  destruct (ge _ 30); [now right; right; left|].
  destruct (ge _ 10); [now right; right; right; left|].
  now right; right; right; right.
Qed.

Lemma assessPopularityRisk_cases (artist : string) :
  assessPopularityRisk artist = assessPopularityRisk "Queen" \/
  assessPopularityRisk artist = assessPopularityRisk "Coldplay" \/
  assessPopularityRisk artist = assessPopularityRisk "".
Proof.
  unfold assessPopularityRisk at 1 3 5.
  destruct (some _ veryPopularArtists); [now left|].
  destruct (some _ popularArtists); [now right; left|].
  now right; right.
Qed.

Lemma assessPreviousUsageRisk_cases (track : string) :
  assessPreviousUsageRisk track = assessPreviousUsageRisk "Think" \/
  assessPreviousUsageRisk track = assessPreviousUsageRisk "Nautilus" \/
  assessPreviousUsageRisk track = assessPreviousUsageRisk "".
Proof.
  unfold assessPreviousUsageRisk at 1 3 5.
  destruct (some _ frequentlySampledTracks); [now left|].
  destruct (some _ moderatelySampledTracks); [now right; left|].
  now right; right.
Qed.

End Scenarios.

(** Case analysis on the outcomes of the four assessors in a call to
    [calculateRiskScore]: ninety closed cases. *)
Ltac risk_cases now sourceTrack originalArtist releaseYear label :=
  unfold calculateRiskScore;
  destruct (assessLabelRisk_cases label) as [-> | ->];
  destruct (assessAgeRisk_cases now releaseYear)
    as [-> | [-> | [-> | [-> | ->]]]];
  destruct (assessPopularityRisk_cases originalArtist) as [-> | [-> | ->]];
  destruct (assessPreviousUsageRisk_cases sourceTrack) as [-> | [-> | ->]].

(** C3.  Seen from 2024, the track "Funky Drummer - James Brown" by "James
    Brown" on "Polydor Records", released in 1970 (age 54), gets label factor
    80/high, age factor 30/low, popularity factor 85/high, usage factor
    70/high; the weighted total is (80*3 + 30*2 + 85*2.5 + 70*2.5) / 10 =
    68.75, the total score is 69 and the risk level is medium. *)
Theorem scenario_A (now : Date) (rightsHolder : string) :
  getFullYear now = 2024%Z ->
  let r := calculateRiskScore now "Funky Drummer - James Brown" "James Brown"
             rightsHolder 1970 "Polydor Records" in
  track_age now 1970 == 54 /\
  profile (factors r) =
    [ (80, 3, high); (30, 2, low); (85, 2.5, high); (70, 2.5, high) ] /\
  sum_over (fun f => score f * weight f) (factors r)
    == 80 * 3 + 30 * 2 + 85 * 2.5 + 70 * 2.5 /\
  sum_over weight (factors r) == 10 /\
  weighted_mean (factors r) == 68.75 /\
  totalScore r = 69 /\
  riskLevel r = medium.
Proof.
  destruct now as [y m d]. cbn [getFullYear]. intros ->.
  vm_compute. repeat split; reflexivity.
Qed.

Lemma scenario_A_witness :
  getFullYear (mkDate 2024 5 15) = 2024%Z /\
  let r := calculateRiskScore (mkDate 2024 5 15) "Funky Drummer - James Brown"
             "James Brown" "Universal Music Group" 1970 "Polydor Records" in
  totalScore r = 69 /\ riskLevel r = medium.
Proof.
  split; [reflexivity|].
  destruct (scenario_A (mkDate 2024 5 15) "Universal Music Group" eq_refl)
    as (_ & _ & _ & _ & _ & Ht & Hr).
  split; assumption.
Defined.

(** C6, as stated, fails: seen from 2024, an unknown label, artist and track
    released in 2024 match no table, yet the label factor does not weigh 2
    and the total score is not 44. *)
Lemma scenario_B_counterexample :
  let now := mkDate 2024 0 1 in
  let r := calculateRiskScore now "Unknown Track" "Unknown Artist"
             "Unknown Holder" 2024 "Indie Records Co" in
  (~ matches_table majorLabels "Indie Records Co" /\
   ~ matches_table veryPopularArtists "Unknown Artist" /\
   ~ matches_table popularArtists "Unknown Artist" /\
   ~ matches_table frequentlySampledTracks "Unknown Track" /\
   ~ matches_table moderatelySampledTracks "Unknown Track" /\
   track_age now 2024 == 0) /\
  ~ (weight (assessLabelRisk "Indie Records Co") == 2) /\
  ~ (totalScore r == 44).
Proof.
  cbv zeta. split; [|split].
  - repeat split; try (apply some_includes_false; vm_compute; reflexivity).
  - vm_compute. discriminate.
  - vm_compute. discriminate.
Qed.

(** C6, amended.  For a label matched by no major-label fragment, an artist
    matched by neither popularity list, a track matched by neither
    sampled-track list and a release in the current year (age 0): label
    factor 40 with weight 3, age factor 75 with weight 2, popularity factor
    35 with weight 2.5, usage factor 30 with weight 2.5, total score
    (120 + 150 + 87.5 + 75) / 10 = 43.25 rounded to 43, risk level medium. *)
Theorem scenario_B
    (now : Date) (sourceTrack originalArtist rightsHolder label : string) :
  ~ matches_table majorLabels label ->
  ~ matches_table veryPopularArtists originalArtist ->
  ~ matches_table popularArtists originalArtist ->
  ~ matches_table frequentlySampledTracks sourceTrack ->
  ~ matches_table moderatelySampledTracks sourceTrack ->
  let r := calculateRiskScore now sourceTrack originalArtist rightsHolder
             (inject_Z (getFullYear now)) label in
  track_age now (inject_Z (getFullYear now)) == 0 /\
  profile (factors r) =
    [ (40, 3, medium); (75, 2, high); (35, 2.5, low); (30, 2.5, low) ] /\
  sum_over (fun f => score f * weight f) (factors r) == 120 + 150 + 87.5 + 75 /\
  sum_over weight (factors r) == 10 /\
  weighted_mean (factors r) == 43.25 /\
  totalScore r = 43 /\
  riskLevel r = medium.
Proof.
  intros HL HV HP HF HM.
  apply some_includes_false in HL, HV, HP, HF, HM.
  split; [unfold track_age; ring|].
  unfold calculateRiskScore. rewrite assessAgeRisk_current_year.
  unfold assessLabelRisk, assessPopularityRisk, assessPreviousUsageRisk.
  cbv zeta. rewrite HL, HV, HP, HF, HM.
  vm_compute. repeat split; reflexivity.
Qed.

Lemma scenario_B_witness :
  let r := calculateRiskScore (mkDate 2024 0 1) "Unknown Track" "Unknown Artist"
             "Unknown Holder" (inject_Z 2024) "Indie Records Co" in
  ~ matches_table majorLabels "Indie Records Co" /\
  totalScore r = 43 /\ riskLevel r = medium.
Proof.
  assert (HL : ~ matches_table majorLabels "Indie Records Co")
    by (apply some_includes_false; vm_compute; reflexivity).
  assert (HV : ~ matches_table veryPopularArtists "Unknown Artist")
    by (apply some_includes_false; vm_compute; reflexivity).
  assert (HP : ~ matches_table popularArtists "Unknown Artist")
    by (apply some_includes_false; vm_compute; reflexivity).
  assert (HF : ~ matches_table frequentlySampledTracks "Unknown Track")
    by (apply some_includes_false; vm_compute; reflexivity).
  assert (HM : ~ matches_table moderatelySampledTracks "Unknown Track")
    by (apply some_includes_false; vm_compute; reflexivity).
  destruct (scenario_B (mkDate 2024 0 1) "Unknown Track" "Unknown Artist"
              "Unknown Holder" "Indie Records Co" HL HV HP HF HM)
    as (_ & _ & _ & _ & _ & Ht & Hr).
  cbv zeta. split; [exact HL | split; assumption].
Defined.

(** ** The narrative generator *)

(** C7.  For every input, the result has [3 + (number of high-impact
    factors)] potential issues and as many mitigation strategies as factors
    carrying a mitigation string, which is always 4. *)
Theorem narrative_lengths
    (now : Date) (sourceTrack originalArtist rightsHolder : string)
    (releaseYear : number) (label : string) :
  let r := calculateRiskScore now sourceTrack originalArtist rightsHolder
             releaseYear label in
  List.length (potentialIssues r) = (3 + high_impact_count (factors r))%nat /\
  List.length (mitigationStrategies r) = mitigation_count (factors r) /\
  mitigation_count (factors r) = 4%nat.
Proof.
  cbv zeta. risk_cases now sourceTrack originalArtist releaseYear label;
    vm_compute; repeat split; reflexivity.
Qed.

(** ** Risk-level thresholds *)

(** Settles the three equivalences of [uses_thresholds] once the
    comparisons with 70 and 40 are decided. *)
Ltac settle_thresholds :=
  cbn; repeat split; intros;
  solve [ reflexivity | discriminate | lra | tauto
        | match goal with H : _ /\ _ |- _ => destruct H; lra end ].

Section Thresholds.

Lemma threshold_chain (A : Type) (hi mid lo : A) :
  hi <> mid -> hi <> lo -> mid <> lo ->
  uses_thresholds
    (fun s => if ge s 70 then hi else if ge s 40 then mid else lo)
    hi mid lo.
Proof.
  intros Hhm Hhl Hml s. cbv beta. split_ge;
    repeat split; intros;
    solve [ reflexivity | congruence | lra
          | exfalso; lra
          | match goal with H : _ /\ _ |- _ => destruct H; lra end ].
Qed.

Lemma getRiskLevelColor_thresholds :
  uses_thresholds (fun s => level (getRiskLevelColor s)) "High" "Medium" "Low".
Proof.
  intros s. cbv beta. unfold getRiskLevelColor. split_ge; settle_thresholds.
Qed.

Lemma clamp_ge (s c : number) :
  0 < c -> c <= 100 ->
  ge (Math_max 0 (Math_min 100 s)) c = ge s c.
Proof.
  intros H0 H100.
  destruct (ge s c) eqn:E;
    [apply ge_true in E; apply ge_true | apply ge_false in E; apply ge_false];
    unfold Math_min;
    (destruct (Qle_bool 100 s) eqn:Emin;
     [apply (ge_true s 100) in Emin | apply (ge_false s 100) in Emin]);
    unfold Math_max;
    match goal with
    | |- context [Qle_bool 0 ?m] =>
        destruct (Qle_bool 0 m) eqn:Emax;
        [apply (ge_true m 0) in Emax | apply (ge_false m 0) in Emax]
    end;
    lra.
Qed.

End Thresholds.

(** C2.  For every input, the risk level of the result is high exactly when
    the total score is at least 70, medium exactly when it is at least 40
    and below 70, and low exactly when it is below 40; and the same 70/40
    thresholds classify a score in [getRiskLevelColor] of the same module,
    which therefore agrees with the risk level on every result, and in the
    other consumers of the score (the hook's [updateRiskScore] and
    [getRiskLevelColor], the panels' [getRiskLevel], the sample card's
    [getRiskBadge]). *)
Theorem riskLevel_thresholds :
  (forall (now : Date) (sourceTrack originalArtist rightsHolder : string)
          (releaseYear : number) (label : string),
     let r := calculateRiskScore now sourceTrack originalArtist rightsHolder
                releaseYear label in
     (riskLevel r = high <-> 70 <= totalScore r) /\
     (riskLevel r = medium <-> 40 <= totalScore r /\ totalScore r < 70) /\
     (riskLevel r = low <-> totalScore r < 40) /\
     level (getRiskLevelColor (totalScore r)) =
       match riskLevel r with
       | high => "High"
       | medium => "Medium"
       | low => "Low"
       end) /\
  uses_thresholds (fun s => level (getRiskLevelColor s)) "High" "Medium" "Low" /\
  uses_thresholds (fun s => snd (Consumers.updateRiskScore s)) high medium low /\
  uses_thresholds (fun s => level (Consumers.hook_getRiskLevelColor s))
    "High" "Medium" "Low" /\
  uses_thresholds (fun s => level (Consumers.getRiskLevel s))
    "High" "Medium" "Low" /\
  (forall s : number,
     (Consumers.getRiskBadge (Some s) = "High Risk" <-> 70 <= s) /\
     (Consumers.getRiskBadge (Some s) = "Medium Risk" <-> 40 <= s /\ s < 70) /\
     (Consumers.getRiskBadge (Some s) = "Low Risk" <-> s < 40 /\ ~ s == 0)).
Proof.
  split; [|split; [|split; [|split; [|split]]]].
  - intros now sourceTrack originalArtist rightsHolder releaseYear label.
    unfold calculateRiskScore. cbv zeta. cbn [riskLevel totalScore].
    match goal with |- context [ge ?t 70] => generalize t end.
    intros total.
    destruct (threshold_chain Level high medium low
                ltac:(discriminate) ltac:(discriminate) ltac:(discriminate)
                total) as [Hh [Hm Hl]].
    cbv beta in Hh, Hm, Hl. repeat (split; [assumption|]).
    unfold getRiskLevelColor.
    destruct (ge total 70); [reflexivity|].
    destruct (ge total 40); reflexivity.
  - exact getRiskLevelColor_thresholds.
  - intros s. cbv beta. unfold Consumers.updateRiskScore. cbn [snd].
    rewrite !clamp_ge by lra.
    apply (threshold_chain Level high medium low); discriminate.
  - exact getRiskLevelColor_thresholds.
  - exact getRiskLevelColor_thresholds.
  - intros s. unfold Consumers.getRiskBadge, Consumers.falsy.
    destruct (Qeq_bool s 0) eqn:E0.
    + apply Qeq_bool_iff in E0.
      repeat split; intros; try discriminate; try tauto;
        try (exfalso; lra);
        match goal with H : _ /\ _ |- _ => destruct H; exfalso; lra end.
    + assert (~ s == 0) by (intros K; apply Qeq_bool_iff in K; congruence).
      split_ge; settle_thresholds.
Qed.

(** ** Dependence on the arguments and on the clock *)

(** C8, as stated, fails: the same arguments give different results on the
    last day of 2024 and on the first day of 2025, a 2015 release turning
    ten years old in between. *)
Lemma calculateRiskScore_clock_counterexample :
  calculateRiskScore (mkDate 2024 11 31) "Track" "Artist" "Holder" 2015 "Label"
  <> calculateRiskScore (mkDate 2025 0 1) "Track" "Artist" "Holder" 2015 "Label".
Proof.
  intros H. apply (f_equal totalScore) in H. vm_compute in H. discriminate.
Qed.

(** C8, amended.  Two calls with identical arguments made in the same
    calendar year return identical results: the result depends on the
    arguments and on the current year read from the clock, and on nothing
    else. *)
Theorem calculateRiskScore_deterministic
    (now1 now2 : Date) (sourceTrack originalArtist rightsHolder : string)
    (releaseYear : number) (label : string) :
  getFullYear now1 = getFullYear now2 ->
  calculateRiskScore now1 sourceTrack originalArtist rightsHolder
    releaseYear label
  = calculateRiskScore now2 sourceTrack originalArtist rightsHolder
      releaseYear label.
Proof.
  intros H. unfold calculateRiskScore.
  rewrite (assessAgeRisk_same_age now1 now2 releaseYear releaseYear);
    [reflexivity|].
  unfold track_age. now rewrite H.
Qed.

Lemma calculateRiskScore_deterministic_witness :
  calculateRiskScore (mkDate 2024 0 1) "Track" "Artist" "Holder" 2015 "Label"
  = calculateRiskScore (mkDate 2024 11 31) "Track" "Artist" "Holder" 2015 "Label".
Proof.
  apply (calculateRiskScore_deterministic (mkDate 2024 0 1) (mkDate 2024 11 31)).
  reflexivity.
Defined.

(** C9.  Two calls that agree on the source track, the original artist, the
    release year and the label (and on the clock) return the same result,
    field by field, whatever the two rights holders are: the parameter is
    read by no assessor. *)
Theorem calculateRiskScore_ignores_rightsHolder
    (now : Date) (sourceTrack originalArtist : string)
    (rightsHolder1 rightsHolder2 : string)
    (releaseYear : number) (label : string) :
  let r1 := calculateRiskScore now sourceTrack originalArtist rightsHolder1
              releaseYear label in
  let r2 := calculateRiskScore now sourceTrack originalArtist rightsHolder2
              releaseYear label in
  r1 = r2 /\
  totalScore r1 = totalScore r2 /\
  riskLevel r1 = riskLevel r2 /\
  factors r1 = factors r2 /\
  potentialIssues r1 = potentialIssues r2 /\
  mitigationStrategies r1 = mitigationStrategies r2.
Proof.
  cbv zeta. repeat split; reflexivity.
Qed.

(** * Further properties of the scoring utility *)

(** ** Look-up tiers *)

Section TierFacts.

Lemma string_app_assoc (a b c : string) :
  ((a ++ b) ++ c = a ++ (b ++ c))%string.
Proof.
  induction a as [|x a IH]; cbn; [reflexivity | now rewrite IH].
Qed.

Lemma occurs_in_extend (frag s pre post : string) :
  occurs_in frag s -> occurs_in frag (pre ++ s ++ post).
Proof.
  intros [a [b ->]]. exists (pre ++ a)%string, (b ++ post)%string.
  now rewrite !string_app_assoc.
Qed.

Lemma matches_table_extend (table : list string) (s pre post : string) :
  matches_table table s -> matches_table table (pre ++ s ++ post).
Proof.
  intros [frag [Hin H]]. exists frag. split; [exact Hin|].
  now apply occurs_in_extend.
Qed.

Lemma popularity_by_tier (artist : string) :
  let f := assessPopularityRisk artist in
  (matches_table veryPopularArtists artist /\
   score f = 85 /\ impact f = high) \/
  (~ matches_table veryPopularArtists artist /\
   matches_table popularArtists artist /\
   score f = 65 /\ impact f = medium) \/
  (~ matches_table veryPopularArtists artist /\
   ~ matches_table popularArtists artist /\
   score f = 35 /\ impact f = low).
Proof.
  unfold assessPopularityRisk.
  destruct (some _ veryPopularArtists) eqn:EV.
  - left. apply some_includes in EV. cbn. auto.
  - apply some_includes_false in EV.
    destruct (some _ popularArtists) eqn:EP.
    + right; left. apply some_includes in EP. cbn. auto.
    + right; right. apply some_includes_false in EP. cbn. auto.
Qed.

Lemma usage_by_tier (track : string) :
  let f := assessPreviousUsageRisk track in
  (matches_table frequentlySampledTracks track /\
   score f = 70 /\ impact f = high) \/
  (~ matches_table frequentlySampledTracks track /\
   matches_table moderatelySampledTracks track /\
   score f = 50 /\ impact f = medium) \/
  (~ matches_table frequentlySampledTracks track /\
   ~ matches_table moderatelySampledTracks track /\
   score f = 30 /\ impact f = low).
Proof.
  unfold assessPreviousUsageRisk.
  destruct (some _ frequentlySampledTracks) eqn:EF.
  - left. apply some_includes in EF. cbn. auto.
  - apply some_includes_false in EF.
    destruct (some _ moderatelySampledTracks) eqn:EM.
    + right; left. apply some_includes in EM. cbn. auto.
    + right; right. apply some_includes_false in EM. cbn. auto.
Qed.

Lemma label_by_tier (label : string) :
  let f := assessLabelRisk label in
  (matches_table majorLabels label /\ score f = 80 /\ impact f = high) \/
  (~ matches_table majorLabels label /\ score f = 40 /\ impact f = medium).
Proof.
  destruct (matches_table_dec label majorLabels) as [H|H].
  - left. destruct (assessLabelRisk_major label H) as [? [? ?]]. auto.
  - right. destruct (assessLabelRisk_other label H) as [? [? ?]]. auto.
Qed.

End TierFacts.

(** X1.  The popularity assessor always weighs 2.5 and ranks the artist by
    the first table with an entry occurring in the name: the very popular
    table gives 85/high even when the popular table matches too, the popular
    table alone gives 65/medium, and no match gives 35/low. *)
Theorem assessPopularityRisk_tiers (artist : string) :
  let f := assessPopularityRisk artist in
  name f = "Artist Popularity" /\ weight f = 2.5 /\
  ((matches_table veryPopularArtists artist /\
    score f = 85 /\ impact f = high) \/
   (~ matches_table veryPopularArtists artist /\
    matches_table popularArtists artist /\
    score f = 65 /\ impact f = medium) \/
   (~ matches_table veryPopularArtists artist /\
    ~ matches_table popularArtists artist /\
    score f = 35 /\ impact f = low)).
Proof.
  cbv zeta. split; [|split].
  - unfold assessPopularityRisk. split_if; reflexivity.
  - unfold assessPopularityRisk. split_if; reflexivity.
  - exact (popularity_by_tier artist).
Qed.

(** X2.  The previous-usage assessor always weighs 2.5 and ranks the track
    by the first table with an entry occurring in the title: frequently
    sampled gives 70/high, moderately sampled alone gives 50/medium, and no
    match gives 30/low. *)
Theorem assessPreviousUsageRisk_tiers (track : string) :
  let f := assessPreviousUsageRisk track in
  name f = "Previous Sample Usage" /\ weight f = 2.5 /\
  ((matches_table frequentlySampledTracks track /\
    score f = 70 /\ impact f = high) \/
   (~ matches_table frequentlySampledTracks track /\
    matches_table moderatelySampledTracks track /\
    score f = 50 /\ impact f = medium) \/
   (~ matches_table frequentlySampledTracks track /\
    ~ matches_table moderatelySampledTracks track /\
    score f = 30 /\ impact f = low)).
Proof.
  cbv zeta. split; [|split].
  - unfold assessPreviousUsageRisk. split_if; reflexivity.
  - unfold assessPreviousUsageRisk. split_if; reflexivity.
  - exact (usage_by_tier track).
Qed.

(** X3.  Surrounding a label, an artist name or a track title with more text
    never lowers the score of its factor: a table entry that occurs in a
    string occurs in every string containing it. *)
Theorem assessors_monotone_under_extension (s pre post : string) :
  score (assessLabelRisk s) <= score (assessLabelRisk (pre ++ s ++ post)) /\
  score (assessPopularityRisk s)
    <= score (assessPopularityRisk (pre ++ s ++ post)) /\
  score (assessPreviousUsageRisk s)
    <= score (assessPreviousUsageRisk (pre ++ s ++ post)).
Proof.
  split; [|split].
  - destruct (label_by_tier s) as [[M [-> _]]|[_ [-> _]]];
      destruct (label_by_tier (pre ++ s ++ post)) as [[M' [-> _]]|[M' [-> _]]];
      try (now compute);
      exfalso; apply M'; now apply matches_table_extend.
  - destruct (popularity_by_tier s)
      as [[V [-> _]]|[[V [P [-> _]]]|[V [P [-> _]]]]];
      destruct (popularity_by_tier (pre ++ s ++ post))
        as [[V' [-> _]]|[[V' [P' [-> _]]]|[V' [P' [-> _]]]]];
      try (now compute);
      exfalso;
      solve [ apply V'; now apply matches_table_extend
            | apply P'; now apply matches_table_extend ].
  - destruct (usage_by_tier s)
      as [[V [-> _]]|[[V [P [-> _]]]|[V [P [-> _]]]]];
      destruct (usage_by_tier (pre ++ s ++ post))
        as [[V' [-> _]]|[[V' [P' [-> _]]]|[V' [P' [-> _]]]]];
      try (now compute);
      exfalso;
      solve [ apply V'; now apply matches_table_extend
            | apply P'; now apply matches_table_extend ].
Qed.

(** ** The narrative generator on arbitrary factors *)

Section NarrativeFacts.

Lemma high_filter (fs : list RiskFactor) :
  filter (fun f => Level_eqb (impact f) high) fs
  = filter (fun f => match impact f with high => true | _ => false end) fs.
Proof.
  apply filter_ext. intros f. now destruct (impact f).
Qed.

End NarrativeFacts.

(** X4.  For any level and any list of factors, the potential issues start
    with three lines that depend on the level only.  At the high and medium
    levels they continue with one line per high-impact factor, in the order
    of the factors; at the low level nothing follows, whatever the factors
    are. *)
Theorem generatePotentialIssues_shape (lvl : Level) (fs : list RiskFactor) :
  let issues := generatePotentialIssues lvl fs in
  List.length (generatePotentialIssues lvl []) = 3%nat /\
  firstn 3 issues = generatePotentialIssues lvl [] /\
  skipn 3 issues =
    match lvl with
    | low => []
    | _ => map (issue_line lvl)
               (filter (fun f => match impact f with high => true | _ => false end) fs)
    end /\
  List.length issues =
    (3 + match lvl with low => 0 | _ => high_impact_count fs end)%nat.
Proof.
  unfold high_impact_count. rewrite <- high_filter.
  destruct lvl; cbn; rewrite ?length_map; repeat split; reflexivity.
Qed.

(** ** Reach of the total score *)

Section Representatives.

Variable now : Date.

(** The outcome of each assessor together with the condition that selects
    it. *)

Lemma label_rep (label : string) :
  (matches_table majorLabels label /\
   assessLabelRisk label = assessLabelRisk "Sony") \/
  (~ matches_table majorLabels label /\
   assessLabelRisk label = assessLabelRisk "").
Proof.
  unfold assessLabelRisk at 1 3. cbv zeta.
  destruct (some _ majorLabels) eqn:E.
  - left. apply some_includes in E. now split.
  - right. apply some_includes_false in E. now split.
Qed.

Lemma age_rep (releaseYear : number) :
  let year0 := mkDate 0 0 1 in
  let age := track_age now releaseYear in
  (70 <= age /\ assessAgeRisk now releaseYear = assessAgeRisk year0 (-70)) \/
  (50 <= age /\ age < 70 /\
   assessAgeRisk now releaseYear = assessAgeRisk year0 (-50)) \/
  (30 <= age /\ age < 50 /\
   assessAgeRisk now releaseYear = assessAgeRisk year0 (-30)) \/
  (10 <= age /\ age < 30 /\
   assessAgeRisk now releaseYear = assessAgeRisk year0 (-10)) \/
  (age < 10 /\ assessAgeRisk now releaseYear = assessAgeRisk year0 0).
Proof.
  cbv zeta. unfold track_age. unfold assessAgeRisk at 1 3 5 7 9. cbv zeta.
  destruct (ge _ 70) eqn:E70;
    [apply ge_true in E70; now left | apply ge_false in E70].
  destruct (ge _ 50) eqn:E50;
    [apply ge_true in E50; now right; left | apply ge_false in E50].
  destruct (ge _ 30) eqn:E30;
    [apply ge_true in E30; now right; right; left | apply ge_false in E30].
  destruct (ge _ 10) eqn:E10;
    [apply ge_true in E10; now right; right; right; left
    | apply ge_false in E10].
  now right; right; right; right.
Qed.

Lemma popularity_rep (artist : string) :
  (matches_table veryPopularArtists artist /\
   assessPopularityRisk artist = assessPopularityRisk "Queen") \/
  (~ matches_table veryPopularArtists artist /\
   matches_table popularArtists artist /\
   assessPopularityRisk artist = assessPopularityRisk "Coldplay") \/
  (~ matches_table veryPopularArtists artist /\
   ~ matches_table popularArtists artist /\
   assessPopularityRisk artist = assessPopularityRisk "").
Proof.
  unfold assessPopularityRisk at 1 3 5.
  destruct (some _ veryPopularArtists) eqn:EV.
  - left. apply some_includes in EV. now split.
  - apply some_includes_false in EV.
    destruct (some _ popularArtists) eqn:EP.
    + right; left. apply some_includes in EP. now repeat split.
    + right; right. apply some_includes_false in EP. now repeat split.
Qed.

Lemma usage_rep (track : string) :
  (matches_table frequentlySampledTracks track /\
   assessPreviousUsageRisk track = assessPreviousUsageRisk "Think") \/
  (~ matches_table frequentlySampledTracks track /\
   matches_table moderatelySampledTracks track /\
   assessPreviousUsageRisk track = assessPreviousUsageRisk "Nautilus") \/
  (~ matches_table frequentlySampledTracks track /\
   ~ matches_table moderatelySampledTracks track /\
   assessPreviousUsageRisk track = assessPreviousUsageRisk "").
Proof.
  unfold assessPreviousUsageRisk at 1 3 5.
  destruct (some _ frequentlySampledTracks) eqn:EF.
  - left. apply some_includes in EF. now split.
  - apply some_includes_false in EF.
    destruct (some _ moderatelySampledTracks) eqn:EM.
    + right; left. apply some_includes in EM. now repeat split.
    + right; right. apply some_includes_false in EM. now repeat split.
Qed.

End Representatives.

(** Case analysis on the outcomes of the four assessors, keeping the
    condition that selects each outcome. *)
Ltac risk_cases_with now sourceTrack originalArtist releaseYear label :=
  unfold calculateRiskScore;
  destruct (label_rep label) as [[?HL ->] | [?HL ->]];
  destruct (age_rep now releaseYear)
    as [[?HA ->] | [[?HA [?HA ->]] | [[?HA [?HA ->]] | [[?HA [?HA ->]] | [?HA ->]]]]];
  destruct (popularity_rep originalArtist)
    as [[?HV ->] | [[?HV [?HP ->]] | [?HV [?HP ->]]]];
  destruct (usage_rep sourceTrack)
    as [[?HF ->] | [[?HF [?HM ->]] | [?HF [?HM ->]]]].

(** X5.  Whatever the input, the total score lies between 32 and 78, and
    both ends are reached: 32 by an unknown label, artist and track released
    seventy years ago, 78 by a frequently sampled track of a very popular
    artist on a major label released this year. *)
Theorem totalScore_reach :
  (forall (now : Date) (sourceTrack originalArtist rightsHolder : string)
          (releaseYear : number) (label : string),
     let r := calculateRiskScore now sourceTrack originalArtist rightsHolder
                releaseYear label in
     32 <= totalScore r /\ totalScore r <= 78) /\
  (forall (now : Date) (rightsHolder : string),
     totalScore (calculateRiskScore now "" "" rightsHolder
                   (inject_Z (getFullYear now) - 70) "") = 32 /\
     totalScore (calculateRiskScore now "Think" "Queen" rightsHolder
                   (inject_Z (getFullYear now)) "Sony") = 78).
Proof.
  split.
  - intros now sourceTrack originalArtist rightsHolder releaseYear label.
    cbv zeta.
    risk_cases now sourceTrack originalArtist releaseYear label;
      vm_compute; split; discriminate.
  - intros now rightsHolder. split.
    + unfold calculateRiskScore.
      rewrite (assessAgeRisk_same_age now (mkDate 0 0 1)
                 (inject_Z (getFullYear now) - 70) (-70));
        [reflexivity | unfold track_age; cbn [getFullYear]; ring].
    + unfold calculateRiskScore.
      rewrite assessAgeRisk_current_year. reflexivity.
Qed.

(** X6.  A high risk level is reported only for a track on a major label,
    by an artist of one of the two popularity tables, whose title matches one
    of the two sampled-track tables, and that is less than fifty years
    old. *)
Theorem high_risk_requires
    (now : Date) (sourceTrack originalArtist rightsHolder : string)
    (releaseYear : number) (label : string) :
  riskLevel (calculateRiskScore now sourceTrack originalArtist rightsHolder
               releaseYear label) = high ->
  matches_table majorLabels label /\
  (matches_table veryPopularArtists originalArtist \/
   matches_table popularArtists originalArtist) /\
  (matches_table frequentlySampledTracks sourceTrack \/
   matches_table moderatelySampledTracks sourceTrack) /\
  track_age now releaseYear < 50.
Proof.
  risk_cases_with now sourceTrack originalArtist releaseYear label;
    intros H; vm_compute in H; try discriminate H;
    repeat split; auto; lra.
Qed.

Lemma high_risk_requires_witness :
  matches_table majorLabels "Sony Music" /\
  track_age (mkDate 2024 0 1) 2020 < 50.
Proof.
  assert (H : riskLevel (calculateRiskScore (mkDate 2024 0 1) "Think (About It)"
                           "Queen" "Sony" 2020 "Sony Music") = high)
    by (vm_compute; reflexivity).
  destruct (high_risk_requires (mkDate 2024 0 1) "Think (About It)" "Queen"
              "Sony" 2020 "Sony Music" H) as (HL & _ & _ & HA).
  split; assumption.
Defined.

(** X7.  In every result the potential issues are the three lines of the
    risk level followed by one line for each high-impact factor, in factor
    order: no high-impact factor goes unreported, low risk level included. *)
Theorem potentialIssues_report_high_impact
    (now : Date) (sourceTrack originalArtist rightsHolder : string)
    (releaseYear : number) (label : string) :
  let r := calculateRiskScore now sourceTrack originalArtist rightsHolder
             releaseYear label in
  potentialIssues r =
    generatePotentialIssues (riskLevel r) []
    ++ map (issue_line (riskLevel r))
         (filter (fun f => match impact f with high => true | _ => false end)
            (factors r)).
Proof.
  cbv zeta.
  risk_cases now sourceTrack originalArtist releaseYear label; reflexivity.
Qed.

(** X8.  Every factor of a result carries a mitigation, and the mitigation
    strategies are these four texts in factor order (label, age, popularity,
    previous usage), with no filtering and no deduplication. *)
Theorem mitigationStrategies_in_factor_order
    (now : Date) (sourceTrack originalArtist rightsHolder : string)
    (releaseYear : number) (label : string) :
  let r := calculateRiskScore now sourceTrack originalArtist rightsHolder
             releaseYear label in
  map Some (mitigationStrategies r) = map mitigation (factors r) /\
  map name (factors r) =
    [ "Label Ownership"; "Track Age"; "Artist Popularity";
      "Previous Sample Usage" ].
Proof.
  cbv zeta.
  risk_cases now sourceTrack originalArtist releaseYear label;
    split; reflexivity.
Qed.

(** ** Monotonicity of the aggregation *)

Section Monotonicity.

Lemma Math_round_mono (x y : number) :
  x <= y -> Math_round x <= Math_round y.
Proof.
  intros H. unfold Math_round. rewrite <- Zle_Qle.
  apply Qfloor_resp_le. lra.
Qed.

Lemma sum_over_scores_below (fs gs : list RiskFactor) :
  Forall2 scores_below fs gs ->
  sum_over weight fs == sum_over weight gs /\
  sum_over (fun f => score f * weight f) fs
  <= sum_over (fun f => score f * weight f) gs.
Proof.
  induction 1 as [|f g fs gs [Hw [Hw0 Hs]] _ [IHw IHs]];
    cbn [sum_over fold_right].
  - split; lra.
  - fold (sum_over weight fs). fold (sum_over weight gs).
    fold (sum_over (fun f => score f * weight f) fs).
    fold (sum_over (fun f => score f * weight f) gs).
    rewrite <- Hw. split; [lra|].
    assert (score f * weight f <= score g * weight f)
      by (apply Qmult_le_compat_r; assumption).
    lra.
Qed.

Lemma weighted_round_mono (fs gs : list RiskFactor) :
  Forall2 scores_below fs gs ->
  0 < sum_over weight fs ->
  Math_round (weighted_mean fs) <= Math_round (weighted_mean gs).
Proof.
  intros H Hpos. apply Math_round_mono. unfold weighted_mean.
  destruct (sum_over_scores_below fs gs H) as [Hw Hs].
  rewrite <- Hw. unfold Qdiv. apply Qmult_le_compat_r; [exact Hs|].
  apply Qinv_le_0_compat. lra.
Qed.

Lemma scores_below_refl (f : RiskFactor) : well_scored f -> scores_below f f.
Proof.
  intros [_ [_ Hw]]. unfold scores_below. repeat split; lra.
Qed.

End Monotonicity.

(** X9.  All else equal, an earlier release year never gives a higher total
    score than a later one. *)
Theorem totalScore_older_never_higher
    (now : Date) (sourceTrack originalArtist rightsHolder : string)
    (year1 year2 : number) (label : string) :
  year1 <= year2 ->
  totalScore (calculateRiskScore now sourceTrack originalArtist rightsHolder
                year1 label)
  <= totalScore (calculateRiskScore now sourceTrack originalArtist rightsHolder
                   year2 label).
Proof.
  intros Hle.
  rewrite (totalScore_weighted_mean now sourceTrack originalArtist
             rightsHolder year1 label).
  rewrite (totalScore_weighted_mean now sourceTrack originalArtist
             rightsHolder year2 label).
  unfold calculateRiskScore. cbn [factors].
  apply weighted_round_mono.
  - constructor; [apply scores_below_refl, assessLabelRisk_well_scored|].
    constructor.
    + destruct (assessAgeRisk_by_bracket now year1) as [W1 [S1 _]].
      destruct (assessAgeRisk_by_bracket now year2) as [W2 [S2 _]].
      unfold scores_below. rewrite W1, W2, S1, S2.
      repeat split; [lra|].
      apply bracket_score_antitone. unfold track_age.
      generalize (inject_Z (getFullYear now)). intros; lra.
    + constructor; [apply scores_below_refl, assessPopularityRisk_well_scored|].
      constructor; [apply scores_below_refl, assessPreviousUsageRisk_well_scored|].
      constructor.
  - apply sum_over_weight_pos.
    apply Forall_cons; [apply assessLabelRisk_well_scored|].
    apply Forall_cons; [apply assessAgeRisk_well_scored|].
    apply Forall_cons; [apply assessPopularityRisk_well_scored|].
    apply Forall_cons; [apply assessPreviousUsageRisk_well_scored|].
    apply Forall_nil.
Qed.

Lemma totalScore_older_never_higher_witness :
  1950 <= 2020 /\
  totalScore (calculateRiskScore (mkDate 2024 0 1) "Think" "Queen" "" 1950 "Sony")
  <= totalScore (calculateRiskScore (mkDate 2024 0 1) "Think" "Queen" "" 2020 "Sony").
Proof.
  assert (H : 1950 <= 2020) by (vm_compute; discriminate).
  split; [exact H|].
  exact (totalScore_older_never_higher (mkDate 2024 0 1) "Think" "Queen" ""
           1950 2020 "Sony" H).
Defined.

(** X10.  All else equal, a major label scores exactly 12 points more in
    total than a label that matches no major-label fragment. *)
Theorem major_label_adds_twelve
    (now : Date) (sourceTrack originalArtist rightsHolder : string)
    (releaseYear : number) (major other : string) :
  matches_table majorLabels major ->
  ~ matches_table majorLabels other ->
  totalScore (calculateRiskScore now sourceTrack originalArtist rightsHolder
                releaseYear major)
  == totalScore (calculateRiskScore now sourceTrack originalArtist
                   rightsHolder releaseYear other) + 12.
Proof.
  intros HM HO. unfold calculateRiskScore.
  destruct (label_rep major) as [[_ ->] | [K _]]; [|contradiction].
  destruct (label_rep other) as [[K _] | [_ ->]]; [contradiction|].
  destruct (assessAgeRisk_cases now releaseYear)
    as [-> | [-> | [-> | [-> | ->]]]];
  destruct (assessPopularityRisk_cases originalArtist) as [-> | [-> | ->]];
  destruct (assessPreviousUsageRisk_cases sourceTrack) as [-> | [-> | ->]];
    vm_compute; reflexivity.
Qed.

Lemma major_label_adds_twelve_witness :
  totalScore (calculateRiskScore (mkDate 2024 0 1) "Think" "Queen" "" 2020
                "Polydor Records")
  == totalScore (calculateRiskScore (mkDate 2024 0 1) "Think" "Queen" "" 2020
                   "Indie Records Co") + 12.
Proof.
  apply (major_label_adds_twelve (mkDate 2024 0 1) "Think" "Queen" "" 2020
           "Polydor Records" "Indie Records Co").
  - apply some_includes. vm_compute. reflexivity.
  - apply some_includes_false. vm_compute. reflexivity.
Defined.

(** * The hook *)

Section ClampFacts.

Local Abbreviation clamp x := (Math_max 0 (Math_min 100 x)).

Lemma clamp_cases (x : number) :
  (x < 0 /\ clamp x = 0) \/
  (0 <= x /\ x < 100 /\ clamp x = x) \/
  (100 <= x /\ clamp x = 100).
Proof.
  unfold Math_min.
  destruct (Qle_bool 100 x) eqn:E100;
    [apply (ge_true x 100) in E100 | apply (ge_false x 100) in E100].
  - right; right. split; [exact E100 | reflexivity].
  - unfold Math_max.
    destruct (Qle_bool 0 x) eqn:E0;
      [apply (ge_true x 0) in E0 | apply (ge_false x 0) in E0].
    + right; left. auto.
    + left. auto.
Qed.

Lemma clamp_range (x : number) : 0 <= clamp x /\ clamp x <= 100.
Proof.
  destruct (clamp_cases x) as [[? ->]|[[? [? ->]]|[? ->]]]; split; lra.
Qed.

Lemma clamp_mono (x y : number) : x <= y -> clamp x <= clamp y.
Proof.
  intros H.
  destruct (clamp_cases x) as [[? ->]|[[? [? ->]]|[? ->]]];
    destruct (clamp_cases y) as [[? ->]|[[? [? ->]]|[? ->]]]; lra.
Qed.

Lemma clamp_idem (x : number) : clamp (clamp x) = clamp x.
Proof.
  destruct (clamp_cases x) as [[? E]|[[? [? E]]|[? E]]]; rewrite E.
  - reflexivity.
  - exact E.
  - reflexivity.
Qed.

Lemma clamp_integer (k : Z) :
  (0 <= k <= 100)%Z -> clamp (inject_Z k) = inject_Z k.
Proof.
  intros Hk.
  destruct (clamp_cases (inject_Z k)) as [[H _]|[[_ [_ E]]|[H E]]].
  - exfalso. change 0 with (inject_Z 0) in H. rewrite <- Zlt_Qlt in H. lia.
  - exact E.
  - rewrite E. change 100 with (inject_Z 100) in H. rewrite <- Zle_Qle in H.
    assert (k = 100%Z) by lia. now subst.
Qed.

Lemma level_of_score_chain (s : number) :
  (if ge s 70 then high else if ge s 40 then medium else low)
  = level_of_score s.
Proof. reflexivity. Qed.

Lemma riskLevel_of_totalScore
    (now : Date) (sourceTrack originalArtist rightsHolder : string)
    (releaseYear : number) (label : string) :
  let r := calculateRiskScore now sourceTrack originalArtist rightsHolder
             releaseYear label in
  riskLevel r = level_of_score (totalScore r).
Proof.
  cbv zeta. unfold level_of_score, calculateRiskScore. cbv zeta.
  cbn [riskLevel totalScore].
  match goal with |- context [ge ?t 70] => generalize t end.
  intros total. reflexivity.
Qed.

End ClampFacts.

(** X11.  Updating the score by hand stores the score clamped to the range
    from 0 to 100 (values below 0 become 0, values above 100 become 100,
    values in range are kept), notifies the parent with the stored value,
    leaves the factors and the texts alone, and storing the stored value
    again changes nothing. *)
Theorem hook_updateRiskScore_clamps
    (p : UseRiskAssessment.UseRiskAssessmentProps)
    (st : UseRiskAssessment.State) (s : number) :
  let st' := fst (UseRiskAssessment.updateRiskScore p st s) in
  let calls := snd (UseRiskAssessment.updateRiskScore p st s) in
  let stored := UseRiskAssessment.riskScore st' in
  ((s < 0 /\ stored = 0) \/
   (0 <= s /\ s < 100 /\ stored = s) \/
   (100 <= s /\ stored = 100)) /\
  calls = (if UseRiskAssessment.onRiskScoreChange p then [stored] else []) /\
  UseRiskAssessment.riskFactors st' = UseRiskAssessment.riskFactors st /\
  UseRiskAssessment.potentialIssues st' = UseRiskAssessment.potentialIssues st /\
  UseRiskAssessment.mitigationStrategies st'
    = UseRiskAssessment.mitigationStrategies st /\
  UseRiskAssessment.updateRiskScore p st' stored = (st', calls).
Proof.
  cbv zeta. unfold UseRiskAssessment.updateRiskScore.
  cbn [fst snd UseRiskAssessment.riskScore UseRiskAssessment.riskFactors
       UseRiskAssessment.potentialIssues UseRiskAssessment.mitigationStrategies].
  split; [exact (clamp_cases s)|].
  repeat (split; [reflexivity|]).
  now rewrite clamp_idem.
Qed.

(** X12.  Every operation of the hook that writes the score writes the level
    of that score (high from 70, medium from 40, low below): the manual
    update, the factor update, and the effect whenever it does not leave the
    state untouched.  The state of the first render starts at level low
    whatever the initial score, so it agrees with its score only when the
    initial score is below 40. *)
Theorem hook_level_follows_score
    (flags : ApiConfig.FeatureFlags) (rendered now : Date)
    (p : UseRiskAssessment.UseRiskAssessmentProps)
    (st : UseRiskAssessment.State) :
  (forall s : number,
     consistent (fst (UseRiskAssessment.updateRiskScore p st s))) /\
  (forall (factorName : string) (adjustment : number),
     match UseRiskAssessment.updateRiskFactor p st factorName adjustment with
     | Some (st', _) => consistent st'
     | None => True
     end) /\
  (let st' := fst (UseRiskAssessment.effect flags rendered now p st) in
   st' = st \/ consistent st') /\
  (consistent (UseRiskAssessment.initialState p)
   <-> UseRiskAssessment.or_zero (UseRiskAssessment.initialRiskScore p) < 40).
Proof.
  split; [|split; [|split]].
  - intros s. reflexivity.
  - intros factorName adjustment. unfold UseRiskAssessment.updateRiskFactor.
    cbv zeta. destruct (Qeq_bool _ 0); [exact I | reflexivity].
  - cbv zeta. unfold UseRiskAssessment.effect. cbv zeta.
    destruct (UseRiskAssessment.empty _ || UseRiskAssessment.empty _)%bool;
      [left; reflexivity | right].
    assert (C : forall r : RiskAssessmentResult,
              riskLevel r = level_of_score (totalScore r) ->
              consistent
                {| UseRiskAssessment.riskScore := totalScore r;
                   UseRiskAssessment.riskLevel := riskLevel r;
                   UseRiskAssessment.riskFactors := factors r;
                   UseRiskAssessment.potentialIssues := potentialIssues r;
                   UseRiskAssessment.mitigationStrategies :=
                     mitigationStrategies r |})
      by (intros r H; exact H).
    destruct (UseRiskAssessment.initialRiskScore p) as [initial|];
      [destruct (negb _); [reflexivity|]|];
      cbn [fst]; apply C; apply riskLevel_of_totalScore.
  - unfold consistent, UseRiskAssessment.initialState, level_of_score.
    cbn [UseRiskAssessment.riskLevel UseRiskAssessment.riskScore].
    set (s := UseRiskAssessment.or_zero _).
    split_ge; split; intros; try discriminate; try reflexivity; lra.
Qed.

Section FactorUpdateFacts.

Variables (factorName : string) (adjustment : number).

Lemma updatedFactors_weight (fs : list RiskFactor) :
  map weight (UseRiskAssessment.updatedFactors factorName adjustment fs)
  = map weight fs.
Proof.
  unfold UseRiskAssessment.updatedFactors. rewrite map_map.
  apply map_ext. intros f. now destruct (String.eqb (name f) factorName).
Qed.

Lemma sum_over_map (f : RiskFactor -> number) (fs gs : list RiskFactor) :
  map f fs = map f gs -> sum_over f fs = sum_over f gs.
Proof.
  revert gs. induction fs as [|x fs IH]; intros [|y gs] H;
    try discriminate; [reflexivity|].
  cbn in H. injection H as Hxy Hrest.
  cbn [sum_over fold_right]. fold (sum_over f fs). fold (sum_over f gs).
  now rewrite Hxy, (IH gs Hrest).
Qed.

Lemma updatedFactors_total_weight (fs : list RiskFactor) :
  sum_over weight (UseRiskAssessment.updatedFactors factorName adjustment fs)
  = sum_over weight fs.
Proof. apply sum_over_map, updatedFactors_weight. Qed.


Lemma updateRiskFactor_defined
    (p : UseRiskAssessment.UseRiskAssessmentProps)
    (st : UseRiskAssessment.State) :
  ~ sum_over weight (UseRiskAssessment.riskFactors st) == 0 ->
  let fs' := UseRiskAssessment.updatedFactors factorName adjustment
               (UseRiskAssessment.riskFactors st) in
  let total := Math_round (weighted_mean fs') in
  UseRiskAssessment.updateRiskFactor p st factorName adjustment
  = Some ({| UseRiskAssessment.riskScore := total;
             UseRiskAssessment.riskLevel := level_of_score total;
             UseRiskAssessment.riskFactors := fs';
             UseRiskAssessment.potentialIssues :=
               UseRiskAssessment.potentialIssues st;
             UseRiskAssessment.mitigationStrategies :=
               UseRiskAssessment.mitigationStrategies st |},
          UseRiskAssessment.notify p total).
Proof.
  intros Hw fs' total. unfold UseRiskAssessment.updateRiskFactor. cbv zeta.
  fold fs'.
  assert (E : Qeq_bool (reduce (fun sum factor => sum + weight factor) 0 fs') 0
              = false).
  { destruct (Qeq_bool _ 0) eqn:K; [|reflexivity].
    exfalso. apply Hw. apply Qeq_bool_iff in K.
    rewrite reduce_sum in K. unfold fs' in K.
    now rewrite updatedFactors_total_weight in K. }
  rewrite E.
  assert (T : Math_round
                (reduce (fun sum factor => sum + score factor * weight factor)
                   0 fs'
                 / reduce (fun sum factor => sum + weight factor) 0 fs')
              = total).
  { apply Math_round_comp. unfold weighted_mean. now rewrite !reduce_sum. }
  rewrite T. reflexivity.
Qed.

End FactorUpdateFacts.

(** X13.  Adjusting a factor touches scores only: every factor keeps its
    name, weight, impact, description and mitigation, a factor called
    [factorName] gets a score between 0 and 100, every other factor is left
    as it is, and when no factor has that name the list is unchanged. *)
Theorem updatedFactors_touch_scores_only
    (factorName : string) (adjustment : number) (fs : list RiskFactor) :
  let fs' := UseRiskAssessment.updatedFactors factorName adjustment fs in
  Forall2
    (fun f f' =>
       same_but_score f f' /\
       ((name f = factorName /\ 0 <= score f' /\ score f' <= 100) \/
        (name f <> factorName /\ f' = f)))
    fs fs' /\
  ((exists f, In f fs /\ name f = factorName) \/ fs' = fs).
Proof.
  cbv zeta. unfold UseRiskAssessment.updatedFactors.
  induction fs as [|f fs [IH1 IH2]]; cbn [map].
  - split; [constructor | now right].
  - destruct (String.eqb (name f) factorName) eqn:E.
    + apply String.eqb_eq in E. split.
      * constructor; [|exact IH1]. split.
        -- unfold same_but_score. cbn. auto.
        -- left. cbn [score UseRiskAssessment.with_score].
           pose proof (clamp_range (score f + adjustment)) as [? ?]. auto.
      * left. exists f. split; [now left | exact E].
    + apply String.eqb_neq in E. split.
      * constructor; [|exact IH1]. split.
        -- unfold same_but_score. auto.
        -- right. auto.
      * destruct IH2 as [[g [Hin Hg]] | ->].
        -- left. exists g. split; [now right | exact Hg].
        -- now right.
Qed.



Section AdjustmentOrder.

Lemma updatedFactors_scores_below
    (factorName : string) (a1 a2 : number) (fs : list RiskFactor) :
  a1 <= a2 ->
  Forall well_scored fs ->
  Forall2 scores_below
    (UseRiskAssessment.updatedFactors factorName a1 fs)
    (UseRiskAssessment.updatedFactors factorName a2 fs).
Proof.
  intros Hle. unfold UseRiskAssessment.updatedFactors.
  induction 1 as [|f fs [_ [_ Hw]] _ IH]; cbn [map]; constructor; [|exact IH].
  destruct (String.eqb (name f) factorName); unfold scores_below.
  - cbn [weight score UseRiskAssessment.with_score].
    repeat split; [lra|]. apply clamp_mono. lra.
  - repeat split; lra.
Qed.

End AdjustmentOrder.

(** X15.  On a state with at least one factor, all with scores between 0 and
    100 and positive weights, a larger adjustment of the same factor never
    gives a lower score. *)
Theorem updateRiskFactor_monotone
    (p : UseRiskAssessment.UseRiskAssessmentProps)
    (st : UseRiskAssessment.State)
    (factorName : string) (a1 a2 : number) :
  a1 <= a2 ->
  UseRiskAssessment.riskFactors st <> [] ->
  Forall well_scored (UseRiskAssessment.riskFactors st) ->
  exists st1 st2 calls1 calls2,
    UseRiskAssessment.updateRiskFactor p st factorName a1 = Some (st1, calls1) /\
    UseRiskAssessment.updateRiskFactor p st factorName a2 = Some (st2, calls2) /\
    UseRiskAssessment.riskScore st1 <= UseRiskAssessment.riskScore st2.
Proof.
  intros Hle Hne Hws.
  destruct (UseRiskAssessment.riskFactors st) as [|f fs] eqn:Efs;
    [contradiction|].
  pose proof (sum_over_weight_pos f fs Hws) as Hpos.
  pose proof (updateRiskFactor_defined factorName a1 p st) as H1.
  pose proof (updateRiskFactor_defined factorName a2 p st) as H2.
  rewrite Efs in H1, H2. cbv zeta in H1, H2.
  do 4 eexists. split; [apply H1; lra|]. split; [apply H2; lra|].
  cbn [UseRiskAssessment.riskScore].
  apply weighted_round_mono.
  - now apply updatedFactors_scores_below.
  - rewrite updatedFactors_total_weight. exact Hpos.
Qed.

Lemma updateRiskFactor_monotone_witness :
  let p := ProjectWorkspace.riskAssessmentProps (Some "Think") (Some "Queen")
             None None in
  let st := fst (UseRiskAssessment.effect ApiConfig.FEATURE_FLAGS
                   (mkDate 2024 0 1) (mkDate 2024 0 1) p
                   (UseRiskAssessment.initialState p)) in
  exists st1 st2 calls1 calls2,
    UseRiskAssessment.updateRiskFactor p st "Track Age" (-5) = Some (st1, calls1) /\
    UseRiskAssessment.updateRiskFactor p st "Track Age" 5 = Some (st2, calls2) /\
    UseRiskAssessment.riskScore st1 <= UseRiskAssessment.riskScore st2.
Proof.
  cbv zeta.
  apply updateRiskFactor_monotone.
  - vm_compute. discriminate.
  - vm_compute. discriminate.
  - vm_compute. repeat constructor; discriminate.
Defined.


Section ComputedState.

Local Abbreviation clamp x := (Math_max 0 (Math_min 100 x)).

Lemma updatedFactors_zero (factorName : string) (fs : list RiskFactor) :
  Forall (fun f => UseRiskAssessment.with_score f (clamp (score f + 0)) = f) fs ->
  UseRiskAssessment.updatedFactors factorName 0 fs = fs.
Proof.
  unfold UseRiskAssessment.updatedFactors.
  induction 1 as [|f fs Hf _ IH]; cbn [map]; [reflexivity|].
  rewrite IH. destruct (String.eqb (name f) factorName); [|reflexivity].
  now rewrite Hf.
Qed.

End ComputedState.

(** X17.  Once the effect has calculated an assessment (source track and
    original artist both non-empty, advanced assessment enabled as shipped),
    adjusting any factor by 0 gives back the same state, score and level
    included, and notifies the parent of the unchanged score: the hook's
    recalculation agrees with the utility's total. *)
Theorem zero_adjustment_keeps_assessment
    (rendered now : Date) (p : UseRiskAssessment.UseRiskAssessmentProps)
    (st0 : UseRiskAssessment.State) (factorName : string) :
  UseRiskAssessment.empty
    (UseRiskAssessment.default "" (UseRiskAssessment.sourceTrack p)) = false ->
  UseRiskAssessment.empty
    (UseRiskAssessment.default "" (UseRiskAssessment.originalArtist p)) = false ->
  let st1 := fst (UseRiskAssessment.effect ApiConfig.FEATURE_FLAGS rendered now
                    p st0) in
  UseRiskAssessment.riskScore st1
  = totalScore
      (calculateRiskScore now
         (UseRiskAssessment.default "" (UseRiskAssessment.sourceTrack p))
         (UseRiskAssessment.default "" (UseRiskAssessment.originalArtist p))
         (UseRiskAssessment.default "" (UseRiskAssessment.rightsHolder p))
         (UseRiskAssessment.default (inject_Z (getFullYear rendered) - 10)
            (UseRiskAssessment.releaseYear p))
         (UseRiskAssessment.default "" (UseRiskAssessment.label p))) /\
  UseRiskAssessment.updateRiskFactor p st1 factorName 0
  = Some (st1, UseRiskAssessment.notify p (UseRiskAssessment.riskScore st1)).
Proof.
  intros Ht Ha. cbv zeta. unfold UseRiskAssessment.effect. cbv zeta.
  rewrite Ht, Ha. cbn [orb ApiConfig.enableAdvancedRiskAssessment
                         ApiConfig.FEATURE_FLAGS negb].
  assert (E : forall (A : Type) (x : A),
            match UseRiskAssessment.initialRiskScore p with
            | Some _ => x
            | None => x
            end = x)
    by (intros A x; now destruct (UseRiskAssessment.initialRiskScore p)).
  rewrite E. cbn [fst UseRiskAssessment.riskScore].
  split; [reflexivity|].
  generalize (UseRiskAssessment.default "" (UseRiskAssessment.sourceTrack p))
             (UseRiskAssessment.default "" (UseRiskAssessment.originalArtist p))
             (UseRiskAssessment.default "" (UseRiskAssessment.rightsHolder p))
             (UseRiskAssessment.default (inject_Z (getFullYear rendered) - 10)
                (UseRiskAssessment.releaseYear p))
             (UseRiskAssessment.default "" (UseRiskAssessment.label p)).
  intros sourceTrack originalArtist rightsHolder releaseYear label.
  unfold UseRiskAssessment.updateRiskFactor. cbv zeta.
  cbn [UseRiskAssessment.riskFactors UseRiskAssessment.potentialIssues
       UseRiskAssessment.mitigationStrategies].
  risk_cases now sourceTrack originalArtist releaseYear label;
    cbn [factors];
    (rewrite updatedFactors_zero
       by (repeat (apply Forall_cons; [vm_compute; reflexivity|]);
           apply Forall_nil));
    vm_compute; reflexivity.
Qed.

Lemma zero_adjustment_keeps_assessment_witness :
  let p := ProjectWorkspace.riskAssessmentProps (Some "Think") (Some "Queen")
             None None in
  let st1 := fst (UseRiskAssessment.effect ApiConfig.FEATURE_FLAGS
                    (mkDate 2024 0 1) (mkDate 2024 0 1) p
                    (UseRiskAssessment.initialState p)) in
  UseRiskAssessment.updateRiskFactor p st1 "Track Age" 0
  = Some (st1, UseRiskAssessment.notify p (UseRiskAssessment.riskScore st1)).
Proof.
  cbv zeta.
  apply (zero_adjustment_keeps_assessment (mkDate 2024 0 1) (mkDate 2024 0 1)
           (ProjectWorkspace.riskAssessmentProps (Some "Think") (Some "Queen")
              None None)
           _ "Track Age" eq_refl eq_refl).
Defined.

(** X18.  As the project workspace calls the hook (no release year, no
    label), and with the render and the calculation in the same year, the
    effect either leaves the state untouched and notifies nobody, which
    happens exactly when the source track or the first segment's artist is
    missing or empty, or stores a score between 40 and 63 with level medium
    and notifies the parent of it: the workspace never shows a calculated
    level other than medium. *)
Theorem workspace_level_is_medium
    (rendered now : Date)
    (identifiedSourceTrack firstSegmentArtist rightsHolderInfo : option string)
    (projectRiskScore : option number) (st : UseRiskAssessment.State) :
  getFullYear rendered = getFullYear now ->
  let p := ProjectWorkspace.riskAssessmentProps identifiedSourceTrack
             firstSegmentArtist rightsHolderInfo projectRiskScore in
  let out := UseRiskAssessment.effect ApiConfig.FEATURE_FLAGS rendered now p st in
  ((ProjectWorkspace.or_empty identifiedSourceTrack = "" \/
    ProjectWorkspace.or_empty firstSegmentArtist = "") /\
   out = (st, [])) \/
  (ProjectWorkspace.or_empty identifiedSourceTrack <> "" /\
   ProjectWorkspace.or_empty firstSegmentArtist <> "" /\
   UseRiskAssessment.riskLevel (fst out) = medium /\
   40 <= UseRiskAssessment.riskScore (fst out) /\
   UseRiskAssessment.riskScore (fst out) <= 63 /\
   snd out = [UseRiskAssessment.riskScore (fst out)]).
Proof.
  intros Hyear. cbv zeta.
  unfold UseRiskAssessment.effect, ProjectWorkspace.riskAssessmentProps.
  cbv zeta.
  cbn [UseRiskAssessment.sourceTrack UseRiskAssessment.originalArtist
       UseRiskAssessment.rightsHolder UseRiskAssessment.releaseYear
       UseRiskAssessment.label UseRiskAssessment.initialRiskScore
       UseRiskAssessment.default].
  generalize (ProjectWorkspace.or_empty identifiedSourceTrack)
             (ProjectWorkspace.or_empty firstSegmentArtist)
             (ProjectWorkspace.or_empty rightsHolderInfo).
  intros sourceTrack originalArtist rightsHolder.
  unfold UseRiskAssessment.empty.
  destruct (String.eqb sourceTrack "") eqn:Et.
  { left. apply String.eqb_eq in Et. auto. }
  destruct (String.eqb originalArtist "") eqn:Ea.
  { left. apply String.eqb_eq in Ea. auto. }
  right. apply String.eqb_neq in Et, Ea.
  split; [exact Et|]. split; [exact Ea|].
  cbn [orb ApiConfig.enableAdvancedRiskAssessment ApiConfig.FEATURE_FLAGS negb].
  assert (E : forall (A : Type) (x : A),
            match projectRiskScore with Some _ => x | None => x end = x)
    by (intros A x; now destruct projectRiskScore).
  rewrite E.
  cbn [fst snd UseRiskAssessment.riskLevel UseRiskAssessment.riskScore
       UseRiskAssessment.notify UseRiskAssessment.onRiskScoreChange].
  unfold calculateRiskScore.
  rewrite (assessAgeRisk_same_age now (mkDate 0 0 1)
             (inject_Z (getFullYear rendered) - 10) (-10))
    by (unfold track_age; rewrite Hyear; cbn [getFullYear]; ring).
  destruct (assessPopularityRisk_cases originalArtist) as [-> | [-> | ->]];
  destruct (assessPreviousUsageRisk_cases sourceTrack) as [-> | [-> | ->]];
    vm_compute; repeat split; discriminate.
Qed.

Lemma workspace_level_is_medium_witness :
  let out := UseRiskAssessment.effect ApiConfig.FEATURE_FLAGS
               (mkDate 2024 0 1) (mkDate 2024 5 15)
               (ProjectWorkspace.riskAssessmentProps
                  (Some "Think") (Some "Queen") None (Some 75))
               (UseRiskAssessment.initialState
                  (ProjectWorkspace.riskAssessmentProps
                     (Some "Think") (Some "Queen") None (Some 75))) in
  UseRiskAssessment.riskLevel (fst out) = medium.
Proof.
  cbv zeta.
  destruct (workspace_level_is_medium (mkDate 2024 0 1) (mkDate 2024 5 15)
              (Some "Think") (Some "Queen") None (Some 75)
              (UseRiskAssessment.initialState
                 (ProjectWorkspace.riskAssessmentProps
                    (Some "Think") (Some "Queen") None (Some 75)))
              eq_refl)
    as [[[H | H] _] | (_ & _ & H & _)];
    [discriminate H | discriminate H | exact H].
Defined.

(** * The risk panel *)

Section PanelFacts.

Local Abbreviation clamp x := (Math_max 0 (Math_min 100 x)).

Lemma Qfloor_unique (x : Q) (k : Z) :
  inject_Z k <= x -> x < inject_Z (k + 1) -> Qfloor x = k.
Proof.
  intros Hlo Hhi.
  pose proof (Qfloor_le x) as H1. pose proof (Qlt_floor x) as H2.
  assert (A : (Qfloor x < k + 1)%Z).
  { rewrite Zlt_Qlt. eapply Qle_lt_trans; eassumption. }
  assert (B : (k < Qfloor x + 1)%Z).
  { rewrite Zlt_Qlt. eapply Qle_lt_trans; eassumption. }
  lia.
Qed.

Lemma round_shift (n k : Z) (d : Q) :
  inject_Z k - (1 # 2) <= d -> d < inject_Z k + (1 # 2) ->
  Math_round (inject_Z n + d) = inject_Z (n + k).
Proof.
  intros Hlo Hhi. unfold Math_round. f_equal. apply Qfloor_unique.
  - rewrite inject_Z_plus.
    generalize dependent (inject_Z k). generalize (inject_Z n). intros; lra.
  - rewrite !inject_Z_plus. change (inject_Z 1) with 1.
    generalize dependent (inject_Z k). generalize (inject_Z n). intros; lra.
Qed.

Lemma click_up (n : Z) (d : Q) :
  (0 <= n <= 100)%Z -> d == 5 # 4 ->
  Math_round (clamp (inject_Z n + d)) = inject_Z (Z.min 100 (n + 1)).
Proof.
  intros Hn Hd.
  assert (A : 0 <= inject_Z n) by (change 0 with (inject_Z 0); rewrite <- Zle_Qle; lia).
  destruct (clamp_cases (inject_Z n + d)) as [[H _]|[[_ [H ->]]|[H ->]]].
  - exfalso. lra.
  - assert (B : inject_Z n < inject_Z 99)
      by (change (inject_Z 99) with 99; lra).
    rewrite <- Zlt_Qlt in B.
    replace (Z.min 100 (n + 1)) with (n + 1)%Z by lia.
    apply round_shift; change (inject_Z 1) with 1; lra.
  - assert (B : inject_Z 98 < inject_Z n)
      by (change (inject_Z 98) with 98; lra).
    rewrite <- Zlt_Qlt in B.
    replace (Z.min 100 (n + 1)) with 100%Z by lia.
    reflexivity.
Qed.

Lemma click_down (n : Z) (d : Q) :
  (0 <= n <= 100)%Z -> d == - (5 # 4) ->
  Math_round (clamp (inject_Z n + d)) = inject_Z (Z.max 0 (n - 1)).
Proof.
  intros Hn Hd.
  assert (A : inject_Z n <= 100)
    by (change 100 with (inject_Z 100); rewrite <- Zle_Qle; lia).
  destruct (clamp_cases (inject_Z n + d)) as [[H ->]|[[H [_ ->]]|[H _]]].
  - assert (B : inject_Z n < inject_Z 2)
      by (change (inject_Z 2) with 2; lra).
    rewrite <- Zlt_Qlt in B.
    replace (Z.max 0 (n - 1)) with 0%Z by lia.
    reflexivity.
  - assert (B : inject_Z 1 < inject_Z n)
      by (change (inject_Z 1) with 1; lra).
    rewrite <- Zlt_Qlt in B.
    replace (Z.max 0 (n - 1)) with (n + -1)%Z by lia.
    apply round_shift; change (inject_Z (-1)) with (-1); lra.
  - exfalso. lra.
Qed.

End PanelFacts.

(** X19.  The panel's copy of the look-up logic gives every factor the same
    mitigation text as the utility does, in the same order (label, age,
    popularity, previous usage), and the same impact for the popularity and
    previous-usage factors. *)
Theorem panel_texts_agree_with_utility
    (show : number -> string) (now : Date)
    (p : RiskAssessmentPanel.RiskAssessmentProps) :
  let panel := RiskAssessmentPanel.riskFactors show now p in
  let r := calculateRiskScore now
             (RiskAssessmentPanel.sourceTrack p)
             (RiskAssessmentPanel.originalArtist p)
             (RiskAssessmentPanel.rightsHolder p)
             (RiskAssessmentPanel.releaseYear p)
             (RiskAssessmentPanel.label p) in
  map RiskAssessmentPanel.mitigation panel = map mitigation (factors r) /\
  RiskAssessmentPanel.getPopularityImpact (RiskAssessmentPanel.originalArtist p)
  = impact (assessPopularityRisk (RiskAssessmentPanel.originalArtist p)) /\
  RiskAssessmentPanel.getPreviousUsageImpact (RiskAssessmentPanel.sourceTrack p)
  = impact (assessPreviousUsageRisk (RiskAssessmentPanel.sourceTrack p)) /\
  RiskAssessmentPanel.getPreviousUsageDescription
    (RiskAssessmentPanel.sourceTrack p)
  = description (assessPreviousUsageRisk (RiskAssessmentPanel.sourceTrack p)).
Proof.
  cbv zeta. destruct p as [rs track holder artist year label cb].
  cbn [RiskAssessmentPanel.sourceTrack RiskAssessmentPanel.originalArtist
       RiskAssessmentPanel.rightsHolder RiskAssessmentPanel.releaseYear
       RiskAssessmentPanel.label].
  repeat split.
  - unfold RiskAssessmentPanel.riskFactors, calculateRiskScore.
    cbn [map factors RiskAssessmentPanel.mitigation
         RiskAssessmentPanel.label RiskAssessmentPanel.releaseYear
         RiskAssessmentPanel.originalArtist RiskAssessmentPanel.sourceTrack].
    assert (L : forall (A : Type) (a a' b b' c c' d d' : A),
              a = a' -> b = b' -> c = c' -> d = d' ->
              [a; b; c; d] = [a'; b'; c'; d'])
      by (intros; subst; reflexivity).
    apply L.
    + unfold RiskAssessmentPanel.isMajorLabel, assessLabelRisk. cbv zeta.
      now destruct (some _ majorLabels).
    + unfold RiskAssessmentPanel.getAgeMitigation, assessAgeRisk. cbv zeta.
      split_if; reflexivity.
    + unfold RiskAssessmentPanel.getPopularityMitigation, assessPopularityRisk.
      split_if; reflexivity.
    + unfold RiskAssessmentPanel.getPreviousUsageMitigation,
        assessPreviousUsageRisk.
      split_if; reflexivity.
  - unfold RiskAssessmentPanel.getPopularityImpact, assessPopularityRisk.
    split_if; reflexivity.
  - unfold RiskAssessmentPanel.getPreviousUsageImpact, assessPreviousUsageRisk.
    split_if; reflexivity.
  - unfold RiskAssessmentPanel.getPreviousUsageDescription,
      assessPreviousUsageRisk.
    split_if; reflexivity.
Qed.

(** X20.  The panel and the utility disagree on two impacts.  For the label
    both say high for a major label, but otherwise the panel says low where
    the utility says medium.  For the age the panel says low from fifty
    years up and medium below, never high, so it agrees with the utility
    exactly for tracks at least ten years old. *)
Theorem panel_impacts_against_utility
    (now : Date) (releaseYear : number) (label : string) :
  let panelLabel :=
    if RiskAssessmentPanel.isMajorLabel label then high else low in
  let panelAge := RiskAssessmentPanel.getAgeImpact now releaseYear in
  ((matches_table majorLabels label /\
    panelLabel = high /\ impact (assessLabelRisk label) = high) \/
   (~ matches_table majorLabels label /\
    panelLabel = low /\ impact (assessLabelRisk label) = medium)) /\
  panelAge <> high /\
  (panelAge = low <-> 50 <= track_age now releaseYear) /\
  (panelAge = impact (assessAgeRisk now releaseYear)
   <-> 10 <= track_age now releaseYear).
Proof.
  cbv zeta. split; [|split; [|split]].
  - unfold RiskAssessmentPanel.isMajorLabel.
    destruct (label_by_tier label) as [[M [_ I]]|[M [_ I]]].
    + left. rewrite (proj2 (some_includes majorLabels label) M). auto.
    + right. rewrite (proj2 (some_includes_false majorLabels label) M). auto.
  - unfold RiskAssessmentPanel.getAgeImpact. cbv zeta.
    split_if; discriminate.
  - unfold RiskAssessmentPanel.getAgeImpact, track_age. cbv zeta.
    split_ge; split; intros; try discriminate; try reflexivity; lra.
  - unfold RiskAssessmentPanel.getAgeImpact, assessAgeRisk, track_age.
    cbv zeta.
    split_ge; cbn [impact]; split; intros;
      try discriminate; try reflexivity; lra.
Qed.

Section PanelAdjustment.

Variables (show : number -> string) (now : Date).

Lemma panel_find (p : RiskAssessmentPanel.RiskAssessmentProps)
    (factorId : string) :
  match find (fun f => String.eqb (RiskAssessmentPanel.id f) factorId)
          (RiskAssessmentPanel.riskFactors show now p) with
  | Some f => In factorId
                [ "major_label"; "track_age"; "artist_popularity";
                  "sample_usage" ] /\
              RiskAssessmentPanel.id f = factorId /\
              5 <= RiskAssessmentPanel.score f /\
              RiskAssessmentPanel.score f <= 30
  | None => ~ In factorId
                [ "major_label"; "track_age"; "artist_popularity";
                  "sample_usage" ]
  end.
Proof.
  unfold RiskAssessmentPanel.riskFactors.
  cbn [find RiskAssessmentPanel.id].
  destruct (String.eqb "major_label" factorId) eqn:E1.
  { apply String.eqb_eq in E1. cbn [RiskAssessmentPanel.score].
    split; [now left|]. split; [exact E1|].
    destruct (RiskAssessmentPanel.isMajorLabel _);
      split; vm_compute; discriminate. }
  destruct (String.eqb "track_age" factorId) eqn:E2.
  { apply String.eqb_eq in E2. cbn [RiskAssessmentPanel.score].
    split; [now right; left|]. split; [exact E2|].
    unfold RiskAssessmentPanel.getAgeScore. cbv zeta.
    split_if; split; vm_compute; discriminate. }
  destruct (String.eqb "artist_popularity" factorId) eqn:E3.
  { apply String.eqb_eq in E3. cbn [RiskAssessmentPanel.score].
    split; [now right; right; left|]. split; [exact E3|].
    unfold RiskAssessmentPanel.getPopularityScore.
    split_if; split; vm_compute; discriminate. }
  destruct (String.eqb "sample_usage" factorId) eqn:E4.
  { apply String.eqb_eq in E4. cbn [RiskAssessmentPanel.score].
    split; [now right; right; right; left|]. split; [exact E4|].
    unfold RiskAssessmentPanel.getPreviousUsageScore.
    split_if; split; vm_compute; discriminate. }
  apply String.eqb_neq in E1, E2, E3, E4.
  intros [H|[H|[H|[H|[]]]]]; congruence.
Qed.

End PanelAdjustment.

(** X21.  An adjustment in the panel calls [onUpdateRiskScore] at most once,
    and not at all exactly when no callback is supplied or the factor id is
    not one of the four the panel shows.  The value it passes is an integer
    between 0 and 100, so the hook's manual update, which the workspace
    supplies as the callback, stores it unchanged. *)
Theorem panel_adjustment_in_range
    (show : number -> string) (now : Date)
    (p : RiskAssessmentPanel.RiskAssessmentProps)
    (factorId : string) (adjustment : number)
    (hookProps : UseRiskAssessment.UseRiskAssessmentProps)
    (st : UseRiskAssessment.State) :
  let calls :=
    RiskAssessmentPanel.handleFactorAdjustment show now p factorId adjustment in
  (List.length calls <= 1)%nat /\
  (calls = [] <->
   RiskAssessmentPanel.onUpdateRiskScore p = false \/
   ~ In factorId
       [ "major_label"; "track_age"; "artist_popularity"; "sample_usage" ]) /\
  Forall
    (fun v =>
       integer_between 0 100 v /\
       UseRiskAssessment.riskScore
         (fst (UseRiskAssessment.updateRiskScore hookProps st v)) = v)
    calls.
Proof.
  cbv zeta. unfold RiskAssessmentPanel.handleFactorAdjustment. cbv zeta.
  pose proof (panel_find show now p factorId) as Hfind.
  destruct (find _ (RiskAssessmentPanel.riskFactors show now p)) as [f|].
  - destruct Hfind as [Hin _].
    destruct (RiskAssessmentPanel.onUpdateRiskScore p); cbn [negb].
    + split; [cbn; lia|]. split.
      * split; [discriminate | intros [H|H]; [discriminate | contradiction]].
      * constructor; [|constructor].
        match goal with
        | |- integer_between 0 100 (Math_round ?x) /\ _ =>
            assert (Hr : integer_between 0 100 (Math_round x))
        end.
        { match goal with
          | |- integer_between 0 100 (Math_round (Math_max 0 (Math_min 100 ?y))) =>
              destruct (clamp_range y) as [Hlo Hhi]
          end.
          apply (Math_round_range _ 0 100); assumption. }
        split; [exact Hr|].
        destruct Hr as [k [-> Hk]].
        unfold UseRiskAssessment.updateRiskScore.
        cbn [fst UseRiskAssessment.riskScore].
        now apply clamp_integer.
    + split; [cbn; lia|]. split; [split; auto | constructor].
  - split; [cbn; lia|]. split; [split; auto | constructor].
Qed.

(** X22.  With a callback supplied and an integer score between 0 and 100,
    the panel's two buttons move the score by exactly one point within that
    range: raising any of the four factors by 5 passes the score plus one (at
    most 100), lowering it by 5 passes the score minus one (at least 0). *)
Theorem panel_buttons_move_one_point
    (show : number -> string) (now : Date)
    (p : RiskAssessmentPanel.RiskAssessmentProps)
    (factorId : string) (n : Z) :
  RiskAssessmentPanel.onUpdateRiskScore p = true ->
  RiskAssessmentPanel.riskScore p = inject_Z n ->
  (0 <= n <= 100)%Z ->
  In factorId
    [ "major_label"; "track_age"; "artist_popularity"; "sample_usage" ] ->
  RiskAssessmentPanel.handleFactorAdjustment show now p factorId 5
  = [inject_Z (Z.min 100 (n + 1))] /\
  RiskAssessmentPanel.handleFactorAdjustment show now p factorId (-5)
  = [inject_Z (Z.max 0 (n - 1))].
Proof.
  intros Hcb Hscore Hn Hin.
  unfold RiskAssessmentPanel.handleFactorAdjustment. cbv zeta.
  pose proof (panel_find show now p factorId) as Hfind.
  destruct (find _ (RiskAssessmentPanel.riskFactors show now p)) as [f|];
    [|contradiction].
  destruct Hfind as (_ & _ & Hlo & Hhi).
  rewrite Hcb, Hscore. cbn [negb].
  assert (Hlen : inject_Z (Z.of_nat
                   (List.length (RiskAssessmentPanel.riskFactors show now p)))
                 = 4) by reflexivity.
  rewrite Hlen.
  set (s := RiskAssessmentPanel.score f) in *.
  assert (Eup : Math_max 0 (Math_min 100 (s + 5)) = s + 5).
  { destruct (clamp_cases (s + 5)) as [[H _]|[[_ [_ E]]|[H _]]];
      [exfalso; lra | exact E | exfalso; lra]. }
  assert (Edown : Math_max 0 (Math_min 100 (s + -5)) = s + -5).
  { destruct (clamp_cases (s + -5)) as [[H _]|[[_ [_ E]]|[H _]]];
      [exfalso; lra | exact E | exfalso; lra]. }
  rewrite Eup, Edown. split; f_equal.
  - apply click_up; [exact Hn | field].
  - apply click_down; [exact Hn | field].
Qed.

Lemma panel_buttons_move_one_point_witness :
  let p := RiskAssessmentPanel.mkProps (inject_Z 63) "Think" "" "Queen" 2014 ""
             true in
  RiskAssessmentPanel.handleFactorAdjustment (fun _ => "2014")
    (mkDate 2024 0 1) p "track_age" 5 = [inject_Z 64] /\
  RiskAssessmentPanel.handleFactorAdjustment (fun _ => "2014")
    (mkDate 2024 0 1) p "track_age" (-5) = [inject_Z 62].
Proof.
  cbv zeta.
  apply (panel_buttons_move_one_point (fun _ => "2014") (mkDate 2024 0 1)
           (RiskAssessmentPanel.mkProps (inject_Z 63) "Think" "" "Queen" 2014 ""
              true)
           "track_age" 63 eq_refl eq_refl).
  - lia.
  - right; left; reflexivity.
Defined.

(** * What the result depends on *)

Section Tiers.

Lemma assessLabelRisk_same_tier (l1 l2 : string) :
  (matches_table majorLabels l1 <-> matches_table majorLabels l2) ->
  assessLabelRisk l1 = assessLabelRisk l2.
Proof.
  intros H.
  destruct (label_rep l1) as [[M1 ->]|[M1 ->]];
    destruct (label_rep l2) as [[M2 ->]|[M2 ->]];
    solve [reflexivity | tauto].
Qed.

Lemma assessPopularityRisk_same_tier (a1 a2 : string) :
  (matches_table veryPopularArtists a1 <-> matches_table veryPopularArtists a2) ->
  (matches_table popularArtists a1 <-> matches_table popularArtists a2) ->
  assessPopularityRisk a1 = assessPopularityRisk a2.
Proof.
  intros HV HP.
  destruct (popularity_rep a1) as [[V1 ->]|[[V1 [P1 ->]]|[V1 [P1 ->]]]];
    destruct (popularity_rep a2) as [[V2 ->]|[[V2 [P2 ->]]|[V2 [P2 ->]]]];
    solve [reflexivity | tauto].
Qed.

Lemma assessPreviousUsageRisk_same_tier (t1 t2 : string) :
  (matches_table frequentlySampledTracks t1
   <-> matches_table frequentlySampledTracks t2) ->
  (matches_table moderatelySampledTracks t1
   <-> matches_table moderatelySampledTracks t2) ->
  assessPreviousUsageRisk t1 = assessPreviousUsageRisk t2.
Proof.
  intros HF HM.
  destruct (usage_rep t1) as [[F1 ->]|[[F1 [M1 ->]]|[F1 [M1 ->]]]];
    destruct (usage_rep t2) as [[F2 ->]|[[F2 [M2 ->]]|[F2 [M2 ->]]]];
    solve [reflexivity | tauto].
Qed.

Lemma assessAgeRisk_same_bracket (now1 now2 : Date) (y1 y2 : number) :
  age_bracket (track_age now1 y1) = age_bracket (track_age now2 y2) ->
  assessAgeRisk now1 y1 = assessAgeRisk now2 y2.
Proof.
  intros H.
  destruct (age_rep now1 y1)
    as [[A1 ->]|[[A1 [B1 ->]]|[[A1 [B1 ->]]|[[A1 [B1 ->]]|[A1 ->]]]]];
    destruct (age_rep now2 y2)
      as [[A2 ->]|[[A2 [B2 ->]]|[[A2 [B2 ->]]|[[A2 [B2 ->]]|[A2 ->]]]]];
    try reflexivity; exfalso;
    destruct (age_bracket_cases (track_age now1 y1))
      as [[? E1]|[[? [? E1]]|[[? [? E1]]|[[? [? E1]]|[? E1]]]]];
    try lra;
    destruct (age_bracket_cases (track_age now2 y2))
      as [[? E2]|[[? [? E2]]|[[? [? E2]]|[[? [? E2]]|[? E2]]]]];
    try lra; congruence.
Qed.

End Tiers.

(** X23.  The result is determined by four things only: whether the label
    matches the major-label table, which of the two artist tables match,
    which of the two track tables match, and the age bracket of the release
    year.  Two calls that agree on these return the same result in every
    field, whatever the strings, years, clock readings and rights holders
    are. *)
Theorem result_determined_by_tiers
    (now1 now2 : Date)
    (track1 track2 artist1 artist2 holder1 holder2 : string)
    (year1 year2 : number) (label1 label2 : string) :
  (matches_table majorLabels label1 <-> matches_table majorLabels label2) ->
  (matches_table veryPopularArtists artist1
   <-> matches_table veryPopularArtists artist2) ->
  (matches_table popularArtists artist1
   <-> matches_table popularArtists artist2) ->
  (matches_table frequentlySampledTracks track1
   <-> matches_table frequentlySampledTracks track2) ->
  (matches_table moderatelySampledTracks track1
   <-> matches_table moderatelySampledTracks track2) ->
  age_bracket (track_age now1 year1) = age_bracket (track_age now2 year2) ->
  calculateRiskScore now1 track1 artist1 holder1 year1 label1
  = calculateRiskScore now2 track2 artist2 holder2 year2 label2.
Proof.
  intros HL HV HP HF HM HA. unfold calculateRiskScore.
  rewrite (assessLabelRisk_same_tier label1 label2 HL).
  rewrite (assessPopularityRisk_same_tier artist1 artist2 HV HP).
  rewrite (assessPreviousUsageRisk_same_tier track1 track2 HF HM).
  rewrite (assessAgeRisk_same_bracket now1 now2 year1 year2 HA).
  reflexivity.
Qed.

Lemma result_determined_by_tiers_witness :
  calculateRiskScore (mkDate 2024 0 1) "Amen Break" "Prince" "Holder A" 2000
    "Sony Music"
  = calculateRiskScore (mkDate 2030 5 15) "Think" "Queen" "Holder B" 2010
      "Warner Records".
Proof.
  assert (M : forall table s, some (fun t => includes s t) table = true ->
                              matches_table table s)
    by (intros table s; apply some_includes).
  assert (N : forall table s, some (fun t => includes s t) table = false ->
                              ~ matches_table table s)
    by (intros table s; apply some_includes_false).
  apply result_determined_by_tiers.
  - split; intros _; apply M; vm_compute; reflexivity.
  - split; intros _; apply M; vm_compute; reflexivity.
  - split; intros H; exfalso; revert H; apply N; vm_compute; reflexivity.
  - split; intros _; apply M; vm_compute; reflexivity.
  - split; intros H; exfalso; revert H; apply N; vm_compute; reflexivity.
  - vm_compute. reflexivity.
Defined.
